(** * VoiceAI: the transcript analyzer of [transcription_service.py]

    A shallow embedding of the three text-analysis methods of
    [TranscriptionService] -- [create_simple_summary], [extract_action_items]
    and [extract_key_points] -- together with the Python string primitives
    they call, and the properties of the specification proved (or refuted)
    about them; then [transcribe_audio], as a function of what the provider
    and the file system answer, and the analysis that [main.py] runs on its
    result.

    Character domain.  A Python [str] is embedded as a list of characters
    ([list ascii]).  The codes 0-127 are the characters of 7-bit ASCII, and
    on text made of them the primitives below are those of Python: the
    letters are [A-Z] and [a-z], the white space characters are the code
    points 9-13, 28-31 and 32.  The codes from 128 on are not Latin-1: each
    stands for a character outside ASCII that [str.lower], [str.capitalize]
    and [str.strip] leave as it is, as an ideograph does; code 128 is kept for
    U+03D2, GREEK UPSILON WITH HOOK SYMBOL, an uppercase letter without a
    lowercase form ([upsilon_hook] below).  Letters outside ASCII that change
    with case and white space outside ASCII are not in the model: a property
    that depends on them is stated for ASCII text ([ascii_text]). *)

From Stdlib Require Import List Ascii String Arith Bool Lia.
From stdpp Require Import base decidable countable gmap list strings.
Import ListNotations.

Set Default Proof Using "Type".

(** ** Python strings *)

Module Py.

(** A Python string; [len] is [length], [+] is [++], [s[:n]] is [firstn n s]. *)
Abbreviation pystr := (list ascii).

(** A string literal of the source. *)
Definition str (s : string) : pystr := list_ascii_of_string s.

(** Truthiness of a string or of a list: [not x] holds of the empty one. *)
Definition is_empty {A} (l : list A) : bool :=
  match l with [] => true | _ :: _ => false end.

Definition code (c : ascii) : nat := nat_of_ascii c.

(** [c.isspace()] for the characters of the model: the white space of
    ASCII. *)
Definition is_space (c : ascii) : bool :=
  let n := code c in
  ((9 <=? n) && (n <=? 13)) || ((28 <=? n) && (n <=? 32)).

(** The letters of ASCII: [c] is one of [A-Z], [c] is one of [a-z].  On
    ASCII these are [c.isupper()] and [c.islower()]. *)
Definition is_upper (c : ascii) : bool :=
  let n := code c in (65 <=? n) && (n <=? 90).

Definition is_lower (c : ascii) : bool :=
  let n := code c in (97 <=? n) && (n <=? 122).

(** [c.lower()] and the title case of [c] for the characters of the model:
    the letters of ASCII change, every other character stays. *)
Definition lower_char (c : ascii) : ascii :=
  if is_upper c then ascii_of_nat (code c + 32) else c.

Definition upper_char (c : ascii) : ascii :=
  if is_lower c then ascii_of_nat (code c - 32) else c.

(** [s.lower()] *)
Definition lower (s : pystr) : pystr := map lower_char s.

(** [s.capitalize()]: the first character in upper case, the rest in lower
    case. *)
Definition capitalize (s : pystr) : pystr :=
  match s with
  | [] => []
  | c :: rest => upper_char c :: lower rest
  end.

(** [s.lstrip()], [s.rstrip()], [s.strip()] *)
Fixpoint lstrip (s : pystr) : pystr :=
  match s with
  | [] => []
  | c :: rest => if is_space c then lstrip rest else s
  end.

Definition rstrip (s : pystr) : pystr := rev (lstrip (rev s)).

Definition strip (s : pystr) : pystr := rstrip (lstrip s).

(** [s.endswith(c)] for a one-character suffix *)
Definition endswith (s : pystr) (c : ascii) : bool :=
  match rev s with
  | [] => false
  | d :: _ => Ascii.eqb d c
  end.

(** [s.startswith(p)] *)
Fixpoint startswith (s p : pystr) : bool :=
  match p, s with
  | [], _ => true
  | _ :: _, [] => false
  | a :: p', b :: s' => Ascii.eqb a b && startswith s' p'
  end.

(** [sub in s] *)
Fixpoint contains (sub s : pystr) : bool :=
  startswith s sub ||
  match s with
  | [] => false
  | _ :: s' => contains sub s'
  end.

(** [re.split(r'[...]+', s)] for a character class [delim]: the fragments
    between the maximal runs of delimiter characters.  [in_run] tells that
    the character before [s] was a delimiter.  The result always has one
    fragment more than there are runs; fragments at either end may be
    empty. *)
Fixpoint split_runs (delim : ascii -> bool) (in_run : bool) (s : pystr)
  : list pystr :=
  match s with
  | [] => [[]]
  | c :: rest =>
      if delim c then
        if in_run then split_runs delim true rest
        else [] :: split_runs delim true rest
      else
        match split_runs delim false rest with
        | frag :: frags => (c :: frag) :: frags
        | [] => [[c]]
        end
  end.

Definition re_split (delim : ascii -> bool) (s : pystr) : list pystr :=
  split_runs delim false s.

(** Exceptions: the only operation of the analyzer that can raise is list
    indexing. *)
Inductive exn : Type := IndexError.

Inductive outcome (A : Type) : Type :=
  | Ok (a : A)
  | Raise (e : exn).
Arguments Ok {A} a.
Arguments Raise {A} e.

#[export] Instance outcome_ret : MRet outcome := fun A a => Ok a.

#[export] Instance outcome_bind : MBind outcome := fun A B k m =>
  match m with
  | Ok a => k a
  | Raise e => Raise e
  end.

(** [l[i]] for [i >= 0] and [l[-k]] for [k >= 1] *)
Definition index {A} (l : list A) (i : nat) : outcome A :=
  match nth_error l i with
  | Some a => Ok a
  | None => Raise IndexError
  end.

Definition index_neg {A} (l : list A) (k : nat) : outcome A :=
  if (1 <=? k) && (k <=? length l) then index l (length l - k)
  else Raise IndexError.

End Py.

Import Py.

(** ** The analyzer of [TranscriptionService] *)

Module TranscriptionService.

(** The character class of [r'[.!?]+'] *)
Definition sentence_delim (c : ascii) : bool :=
  Ascii.eqb c "." || Ascii.eqb c "!" || Ascii.eqb c "?".

(** The character class of [r'[.!?;]+'] *)
Definition summary_delim (c : ascii) : bool :=
  sentence_delim c || Ascii.eqb c ";".

(** [[s.strip() for s in sentences if s.strip()]] *)
Definition stripped_nonempty (sentences : list pystr) : list pystr :=
  map strip (List.filter (fun s => negb (is_empty (strip s))) sentences).

(** The sentences of a transcript as [create_simple_summary] computes them:
    split on delimiter runs, trimmed, the empty ones discarded. *)
Definition segment (transcript_text : pystr) : list pystr :=
  stripped_nonempty (re_split sentence_delim transcript_text).

Definition short_clip_summary : pystr :=
  str "Short audio clip with minimal content.".

Definition create_simple_summary (transcript_text : pystr) : outcome pystr :=
  if is_empty transcript_text || (length (strip transcript_text) <? 10) then
    mret short_clip_summary
  else
    let sentences := re_split sentence_delim transcript_text in
    let sentences := stripped_nonempty sentences in
    if length sentences <=? 2 then
      mret (str "Brief audio containing: " ++ firstn 100 transcript_text
            ++ str "...")
    else
      first_part ← index sentences 0;
      last_part ← (if 1 <? length sentences then index_neg sentences 1
                   else mret []);
      let summary := str "The audio discusses " ++ lower first_part in
      let summary :=
        if negb (is_empty last_part) then
          summary ++ str " and concludes with " ++ lower last_part
        else summary in
      mret (summary ++ str ".").

Definition action_keywords : list pystr :=
  map str
    [ "need to"; "should"; "must"; "have to"; "will";
      "action"; "todo"; "to do"; "follow up"; "next step";
      "assign"; "responsible"; "deadline"; "schedule";
      "contact"; "email"; "call"; "meeting"; "send";
      "remember"; "don't forget"; "make sure" ].

(** The clean-up shared by the three loops: capitalize, and add a period
    unless the string ends with one. *)
Definition clean (sentence : pystr) : pystr :=
  let clean_sentence := capitalize sentence in
  if negb (endswith clean_sentence ".") then clean_sentence ++ str "."
  else clean_sentence.

(** One turn of the loop over the sentences in [extract_action_items]. *)
Definition action_step (action_items : list pystr) (sentence : pystr)
  : list pystr :=
  let sentence := strip sentence in
  if length sentence <? 5 then action_items
  else
    let sentence_lower := lower sentence in
    if existsb (fun keyword => contains keyword sentence_lower)
         action_keywords
    then action_items ++ [clean sentence]
    else action_items.

(** The list [action_items] when the loop is over. *)
Definition keyword_scan (transcript_text : pystr) : list pystr :=
  fold_left action_step (re_split sentence_delim transcript_text) [].

Definition meeting_item : pystr := str "Follow up on meeting discussion.".
Definition call_item : pystr := str "Review call notes and next steps.".
Definition generic_item : pystr :=
  str "Review recording content for further action.".

Definition extract_action_items (transcript_text : pystr) : list pystr :=
  if is_empty transcript_text then []
  else
    let action_items := keyword_scan transcript_text in
    let action_items :=
      if is_empty action_items && negb (is_empty transcript_text) then
        if contains (str "meeting") (lower transcript_text) then
          action_items ++ [meeting_item]
        else if contains (str "call") (lower transcript_text) then
          action_items ++ [call_item]
        else action_items ++ [generic_item]
      else action_items in
    firstn 5 action_items.

(** One turn of the loop over the fragments of the summary ([min_len] is 15)
    and of the loop over the leading fragments of the transcript ([min_len]
    is 20) in [extract_key_points]. *)
Definition point_step (min_len : nat) (points : list pystr) (point : pystr)
  : list pystr :=
  let point := strip point in
  if min_len <? length point then points ++ [clean point]
  else points.

(** The list [points] after the block "Extract from summary". *)
Definition summary_points (summary : pystr) : list pystr :=
  if negb (is_empty summary) then
    fold_left (point_step 15) (re_split summary_delim summary) []
  else [].

(** The list [points] before the duplicates are removed. *)
Definition gather_points (summary transcript : pystr) : list pystr :=
  let points := summary_points summary in
  if (length points <? 3) && negb (is_empty transcript) then
    let transcript_sentences := re_split sentence_delim transcript in
    fold_left (point_step 20) (firstn 3 transcript_sentences) points
  else points.

(** One turn of the loop "Remove duplicates while preserving order"; the
    state is the set [seen] and the list [unique_points]. *)
Definition unique_step (st : gset pystr * list pystr) (point : pystr)
  : gset pystr * list pystr :=
  let '(seen, unique_points) := st in
  if bool_decide (lower point ∉ seen) then
    ({[ lower point ]} ∪ seen, unique_points ++ [point])
  else st.

Definition unique_points (points : list pystr) : list pystr :=
  snd (fold_left unique_step points (∅, [])).

Definition extract_key_points (summary transcript : pystr) : list pystr :=
  firstn 5 (unique_points (gather_points summary transcript)).

End TranscriptionService.

Import TranscriptionService.

(** ** Predicates of the specification *)

(** "starts with an uppercase first character" *)
Definition starts_upper (x : pystr) : bool :=
  match x with
  | c :: _ => is_upper c
  | [] => false
  end.

(** The first character exists and is not one of the lowercase letters
    [a-z] of ASCII. *)
Definition starts_not_lower (x : pystr) : bool :=
  match x with
  | c :: _ => negb (is_lower c)
  | [] => false
  end.

(** No character after the first is one of the uppercase letters [A-Z] of
    ASCII. *)
Definition tail_lowercase (x : pystr) : bool :=
  forallb (fun c => negb (is_upper c)) (tl x).

(** "ends with a single trailing period" *)
Definition single_trailing_period (x : pystr) : Prop :=
  exists body, x = body ++ str "." /\ endswith body "." = false.

(** "removes case-insensitive duplicates keeping only the first occurrence
    in order", in the words of the specification: the head stays, and what
    equals it up to case goes from the deduplicated rest. *)
Definition ci_eqb (x y : pystr) : bool := bool_decide (lower x = lower y).

Fixpoint dedup_ci (l : list pystr) : list pystr :=
  match l with
  | [] => []
  | x :: rest => x :: List.filter (fun y => negb (ci_eqb x y)) (dedup_ci rest)
  end.

(** ** The branches and tests of the source, named *)

(** The test of the loop of [extract_action_items] on a trimmed sentence. *)
Definition is_action_sentence (sentence : pystr) : bool :=
  negb (length sentence <? 5)
  && existsb (fun keyword => contains keyword (lower sentence)) action_keywords.

(** The item that stands in when the scan finds nothing. *)
Definition fallback_item (transcript_text : pystr) : pystr :=
  if contains (str "meeting") (lower transcript_text) then meeting_item
  else if contains (str "call") (lower transcript_text) then call_item
  else generic_item.

(** The summary of the last branch of [create_simple_summary]. *)
Definition long_summary (first_part last_part : pystr) : pystr :=
  str "The audio discusses " ++ lower first_part
  ++ str " and concludes with " ++ lower last_part ++ str ".".

(** None of [.], [!], [?] occurs in the string. *)
Definition no_sentence_delim (s : pystr) : bool :=
  forallb (fun c => negb (sentence_delim c)) s.

(** The first fragment of a list made longer to the left, as in the last
    branch of [split_runs]. *)
Definition extend_first (p : pystr) (fragments : list pystr) : list pystr :=
  match fragments with
  | frag :: frags => (p ++ frag) :: frags
  | [] => [p]
  end.

(** What one fragment adds to the list [action_items]. *)
Definition action_of_fragment (fragment : pystr) : list pystr :=
  if is_action_sentence (strip fragment) then [clean (strip fragment)] else [].

(** ** ASCII text and a letter outside it *)

Definition is_ascii (c : ascii) : bool := code c <? 128.

(** All the characters of the string are ASCII. *)
Definition ascii_text (s : pystr) : bool := forallb is_ascii s.

(** U+03D2, GREEK UPSILON WITH HOOK SYMBOL.  In Python it is an uppercase
    letter ([isupper()] and [isalpha()] hold) that has no other case:
    [lower()] and [capitalize()] return it unchanged, and it is not white
    space.  That is how [lower_char], [upper_char] and [is_space] treat code
    128. *)
Definition upsilon_hook : ascii := ascii_of_nat 128.

(** "an uppercase letter" among the characters of the model *)
Definition is_uppercase_letter (c : ascii) : bool :=
  is_upper c || Ascii.eqb c upsilon_hook.

(** "all alphabetic characters after the first in lowercase": none of them
    is an uppercase letter. *)
Definition tail_no_uppercase (x : pystr) : bool :=
  forallb (fun c => negb (is_uppercase_letter c)) (tl x).

(** The points that C5 reads from the transcript, in its words: of the first
    3 sentences of the segmentation (split on runs of [.], [!], [?], trimmed,
    the empty ones discarded), those of more than 20 characters, each
    capitalized and given a period. *)
Definition first_three_sentence_points (transcript : pystr) : list pystr :=
  map clean
    (List.filter (fun sentence => 20 <? length sentence)
       (firstn 3 (segment transcript))).

(** ** [transcribe_audio] and the analysis of its result *)

(** The speech-to-text provider and the file system are outside the
    repository: [transcribe_audio] is embedded as a function of what they
    answer.  The numbers of the provider (confidence, duration, the times of
    a chapter) are passed on and never computed with; [value] is their
    type. *)

Module Chapter.
Record t (value : Type) : Type := {
  headline : pystr;
  summary : pystr;
  start : value;
  end_ : value
}.
Arguments headline {value} _.
Arguments summary {value} _.
Arguments start {value} _.
Arguments end_ {value} _.
End Chapter.

(** The transcript object of the provider, as far as [transcribe_audio]
    reads it.  For [error] and [text], [None] is Python's [None]; for
    [summary] and [chapters] it is also a missing attribute; for
    [confidence] and [audio_duration] it is the missing attribute alone, the
    case in which [getattr] gives its default. *)
Module Provider.
Record transcript (value : Type) : Type := {
  status : pystr;
  error : option pystr;
  text : option pystr;
  summary : option pystr;
  confidence : option value;
  audio_duration : option value;
  chapters : option (list (Chapter.t value))
}.
Arguments status {value} _.
Arguments error {value} _.
Arguments text {value} _.
Arguments summary {value} _.
Arguments confidence {value} _.
Arguments audio_duration {value} _.
Arguments chapters {value} _.
End Provider.

(** The dictionary that [transcribe_audio] returns, one field a key. *)
Module Result.
Record t (value : Type) : Type := {
  transcript : pystr;
  summary : pystr;
  chapters : list (Chapter.t value);
  confidence : value;
  audio_duration : value
}.
Arguments transcript {value} _.
Arguments summary {value} _.
Arguments chapters {value} _.
Arguments confidence {value} _.
Arguments audio_duration {value} _.
End Result.

Module Transcribe.

(** What is outside: [os.path.exists], and [Transcriber.transcribe], which
    returns a transcript object or raises an exception, given by its
    [str]. *)
Record world (value : Type) : Type := {
  path_exists : pystr -> bool;
  transcribe : pystr -> pystr + Provider.transcript value
}.
Arguments path_exists {value} _ _.
Arguments transcribe {value} _ _.

(** The exceptions of the body of [transcribe_audio]. *)
Inductive raised : Type :=
  | FileNotFoundError (msg : pystr)
  | RuntimeError (msg : pystr)
  | ClientError (msg : pystr)
  | SummaryError (e : exn).

(** [str(e)] *)
Definition exn_str (e : raised) : pystr :=
  match e with
  | FileNotFoundError msg => msg
  | RuntimeError msg => msg
  | ClientError msg => msg
  | SummaryError IndexError => str "list index out of range"
  end.

(** An optional string inside an f-string. *)
Definition format_option (o : option pystr) : pystr :=
  match o with
  | Some s => s
  | None => str "None"
  end.

(** [x or default] for an optional string: [None] and the empty string are
    false. *)
Definition or_default (o : option pystr) (default : pystr) : pystr :=
  match o with
  | Some (c :: s) => c :: s
  | _ => default
  end.

Section Service.

Context {value : Type}.

(** The defaults [0.0] and [0] of the two [getattr]. *)
Variables (float_zero int_zero : value).

(** The body of the [try]. *)
Definition transcribe_audio_body (w : world value) (file_path : pystr)
  : raised + Result.t value :=
  if negb (path_exists w file_path) then
    inl (FileNotFoundError (str "Audio file not found: " ++ file_path))
  else
    match transcribe w file_path with
    | inl msg => inl (ClientError msg)
    | inr transcript =>
        if bool_decide (Provider.status transcript = str "error") then
          inl (RuntimeError (str "Transcription failed: "
                             ++ format_option (Provider.error transcript)))
        else
          let transcript_text :=
            or_default (Provider.text transcript)
              (str "No transcript available") in
          let ai_summary := Provider.summary transcript in
          match
            match ai_summary with
            | Some (c :: s) => Ok (c :: s)
            | _ => create_simple_summary transcript_text
            end
          with
          | Raise e => inl (SummaryError e)
          | Ok ai_summary =>
              inr {| Result.transcript := transcript_text;
                     Result.summary := ai_summary;
                     Result.chapters :=
                       match Provider.chapters transcript with
                       | Some (c :: cs) =>
                           map (fun chapter =>
                                  {| Chapter.headline := Chapter.headline chapter;
                                     Chapter.summary := Chapter.summary chapter;
                                     Chapter.start := Chapter.start chapter;
                                     Chapter.end_ := Chapter.end_ chapter |})
                             (c :: cs)
                       | _ => []
                       end;
                     Result.confidence :=
                       default float_zero (Provider.confidence transcript);
                     Result.audio_duration :=
                       default int_zero (Provider.audio_duration transcript) |}
          end
    end.

(** [except Exception as e: raise RuntimeError(...)] *)
Definition transcribe_audio (w : world value) (file_path : pystr)
  : raised + Result.t value :=
  match transcribe_audio_body w file_path with
  | inr result => inr result
  | inl e => inl (RuntimeError (str "Transcription service error: "
                                ++ exn_str e))
  end.

(** The message of the exception that a failure raises inside the [try], by
    its cause: the file is missing, the client raised, or the provider
    reported an error. *)
Definition failure_message (w : world value) (file_path : pystr) : pystr :=
  if negb (path_exists w file_path) then
    str "Audio file not found: " ++ file_path
  else
    match transcribe w file_path with
    | inl msg => msg
    | inr transcript =>
        str "Transcription failed: "
        ++ format_option (Provider.error transcript)
    end.

End Service.

(** The two extractions that [process_transcription] and
    [process_recording_now] of [main.py] run on the result. *)
Definition analysis {value : Type} (result : Result.t value)
  : list pystr * list pystr :=
  let action_items := extract_action_items (Result.transcript result) in
  let key_points :=
    extract_key_points (Result.summary result) (Result.transcript result) in
  (action_items, key_points).

(** A world for the examples: the file [uploads/standup.m4a] alone exists,
    and the provider answers with [answer]. *)
Definition sample_world (answer : pystr + Provider.transcript nat)
  : world nat :=
  {| path_exists := fun file_path =>
       bool_decide (file_path = str "uploads/standup.m4a");
     transcribe := fun _ => answer |}.

(** A transcript object with the given status, text and summary. *)
Definition sample_transcript (status : pystr) (text summary : option pystr)
  : Provider.transcript nat :=
  {| Provider.status := status;
     Provider.error := None;
     Provider.text := text;
     Provider.summary := summary;
     Provider.confidence := Some 93;
     Provider.audio_duration := Some 12;
     Provider.chapters := None |}.

End Transcribe.

(** * Proofs *)

(** ** Characters *)

Ltac by_cases_on_char c :=
  destruct c as [[] [] [] [] [] [] [] []]; vm_compute; congruence.

Lemma is_lower_upper_char c : is_lower (upper_char c) = false.
Proof. by_cases_on_char c. Qed.

Lemma is_upper_lower_char c : is_upper (lower_char c) = false.
Proof. by_cases_on_char c. Qed.

Lemma sentence_delim_lower_char c :
  sentence_delim (lower_char c) = sentence_delim c.
Proof. by_cases_on_char c. Qed.

Lemma eqb_dot_lower_char c : Ascii.eqb (lower_char c) "." = Ascii.eqb c ".".
Proof. by_cases_on_char c. Qed.

Lemma eqb_dot_upper_char c : Ascii.eqb (upper_char c) "." = Ascii.eqb c ".".
Proof. by_cases_on_char c. Qed.

Lemma is_space_lower_char c : is_space (lower_char c) = is_space c.
Proof. by_cases_on_char c. Qed.

(** ** [lower], [capitalize], [endswith] *)

Lemma lower_app s1 s2 : lower (s1 ++ s2) = lower s1 ++ lower s2.
Proof. apply map_app. Qed.

Lemma lower_no_upper s : forallb (fun c => negb (is_upper c)) (lower s) = true.
Proof.
  induction s as [|c s IH]; [reflexivity|].
  simpl. by rewrite is_upper_lower_char, IH.
Qed.

Lemma endswith_snoc s c d : endswith (s ++ [c]) d = Ascii.eqb c d.
Proof. unfold endswith. by rewrite rev_app_distr. Qed.

Lemma endswith_app_nonempty s1 s2 d :
  s2 <> [] -> endswith (s1 ++ s2) d = endswith s2 d.
Proof.
  intros H. destruct (exists_last H) as (s2' & c & ->).
  by rewrite app_assoc, !endswith_snoc.
Qed.

Lemma endswith_true s d :
  endswith s d = true <-> exists body, s = body ++ [d].
Proof.
  split.
  - destruct s as [|c s] using rev_ind; [discriminate|].
    rewrite endswith_snoc. intros ->%Ascii.eqb_eq. by exists s.
  - intros (body & ->). rewrite endswith_snoc. apply Ascii.eqb_refl.
Qed.

Lemma endswith_In s d : endswith s d = true -> In d s.
Proof.
  intros (body & ->)%endswith_true. apply in_or_app. right. by left.
Qed.

Lemma endswith_lower_dot s : endswith (lower s) "." = endswith s ".".
Proof.
  destruct s as [|c s] using rev_ind; [reflexivity|].
  rewrite lower_app. simpl. rewrite !endswith_snoc. apply eqb_dot_lower_char.
Qed.

(** ** [strip] *)

Lemma lstrip_decompose s :
  exists p, s = p ++ lstrip s /\ forallb is_space p = true.
Proof.
  induction s as [|c s (p & IH & Hp)].
  - by exists [].
  - simpl. destruct (is_space c) eqn:Hc.
    + exists (c :: p). simpl. rewrite Hc, Hp. split; [by f_equal|done].
    + by exists [].
Qed.

Lemma rstrip_decompose s :
  exists q, s = rstrip s ++ q /\ forallb is_space q = true.
Proof.
  unfold rstrip. destruct (lstrip_decompose (rev s)) as (p & Hs & Hp).
  exists (rev p). split.
  - rewrite <- rev_app_distr, <- Hs. by rewrite rev_involutive.
  - rewrite forallb_forall in *. intros c Hc. apply Hp. by apply in_rev.
Qed.

Lemma strip_decompose s :
  exists p q, s = p ++ strip s ++ q
              /\ forallb is_space p = true /\ forallb is_space q = true.
Proof.
  destruct (lstrip_decompose s) as (p & Hs & Hp).
  destruct (rstrip_decompose (lstrip s)) as (q & Hl & Hq).
  exists p, q. unfold strip. by rewrite <- Hl.
Qed.

Lemma strip_In s c : In c (strip s) -> In c s.
Proof.
  destruct (strip_decompose s) as (p & q & Hs & _). intros H.
  rewrite Hs. apply in_or_app. right. apply in_or_app. by left.
Qed.

(** ** [re.split] *)

Lemma split_runs_nonempty delim b s : split_runs delim b s <> [].
Proof.
  revert b. induction s as [|c s IH]; intros b; simpl; [done|].
  destruct (delim c); [destruct b; [apply IH|done]|].
  destruct (split_runs delim false s); done.
Qed.

(** No fragment holds a delimiter. *)
Lemma split_runs_no_delim delim b s frag c :
  In frag (split_runs delim b s) -> In c frag -> delim c = false.
Proof.
  revert b frag. induction s as [|d s IH]; intros b frag; simpl.
  - intros [<-|[]] [].
  - destruct (delim d) eqn:Hd.
    + destruct b; [apply IH|]. intros [<-|H]; [intros []|by eapply IH].
    + pose proof (IH false) as IH'.
      destruct (split_runs delim false s) as [|f fs].
      * intros [<-|[]] [<-|[]]. done.
      * intros [<-|H] Hc.
        -- destruct Hc as [<-|Hc]; [done|]. eapply IH'; [by left|done].
        -- eapply IH'; [by right|done].
Qed.

Lemma re_split_no_delim delim s frag c :
  In frag (re_split delim s) -> In c frag -> delim c = false.
Proof. apply split_runs_no_delim. Qed.

(** ** [clean] *)

Lemma clean_endswith s : endswith (clean s) "." = true.
Proof.
  unfold clean. destruct (endswith (capitalize s) ".") eqn:H; simpl; [done|].
  apply endswith_snoc.
Qed.

Lemma clean_starts_not_lower s : s <> [] -> starts_not_lower (clean s) = true.
Proof.
  destruct s as [|c s]; [done|]. intros _. unfold clean.
  destruct (negb _); simpl; by rewrite is_lower_upper_char.
Qed.

Lemma clean_tail_lowercase s : tail_lowercase (clean s) = true.
Proof.
  unfold clean, tail_lowercase. destruct s as [|c s].
  - reflexivity.
  - destruct (negb _); simpl.
    + rewrite forallb_app, lower_no_upper. reflexivity.
    + apply lower_no_upper.
Qed.

(** A fragment of a split on a class that holds the period never ends with a
    period, so [clean] always adds one. *)
Lemma clean_no_dot s :
  ~ In "."%char s -> clean s = capitalize s ++ str ".".
Proof.
  intros Hs. unfold clean.
  destruct (endswith (capitalize s) ".") eqn:H; [|done].
  exfalso. apply Hs. destruct s as [|c s]; [discriminate|].
  apply endswith_In in H. destruct H as [H|H].
  - left. pose proof (eqb_dot_upper_char c) as E. rewrite H in E.
    symmetry in E. by apply Ascii.eqb_eq in E.
  - right. unfold lower in H. apply in_map_iff in H as (d & Hd & Hin).
    pose proof (eqb_dot_lower_char d) as E. rewrite Hd in E.
    symmetry in E. apply Ascii.eqb_eq in E. by subst d.
Qed.

(** ** The loops as maps and filters *)

Lemma fold_action_step sentences action_items :
  fold_left action_step sentences action_items
  = action_items
    ++ map clean (List.filter is_action_sentence (map strip sentences)).
Proof.
  revert action_items.
  induction sentences as [|s sentences IH]; intros acc;
    cbn [fold_left map List.filter].
  - by rewrite app_nil_r.
  - rewrite IH. unfold action_step, is_action_sentence.
    destruct (length (strip s) <? 5); cbn [negb andb]; [done|].
    match goal with |- context [existsb ?f ?l] => destruct (existsb f l) end;
      [|done].
    cbn [map]. by rewrite <- app_assoc.
Qed.

Lemma keyword_scan_eq transcript_text :
  keyword_scan transcript_text
  = map clean (List.filter is_action_sentence
                 (map strip (re_split sentence_delim transcript_text))).
Proof. unfold keyword_scan. by rewrite fold_action_step. Qed.

Lemma fold_point_step min_len fragments points :
  fold_left (point_step min_len) fragments points
  = points
    ++ map clean (List.filter (fun p => min_len <? length p)
                    (map strip fragments)).
Proof.
  revert points. induction fragments as [|s fragments IH]; intros acc;
    cbn [fold_left map List.filter].
  - by rewrite app_nil_r.
  - rewrite IH. unfold point_step.
    destruct (min_len <? length (strip s)); [|done].
    cbn [map]. by rewrite <- app_assoc.
Qed.

(** ** Removal of duplicates *)

Lemma filter_filter_ext {A} (f g h : A -> bool) l :
  (forall x, h x = f x && g x) ->
  List.filter f (List.filter g l) = List.filter h l.
Proof.
  intros E. induction l as [|a l IH]; [done|].
  simpl. rewrite E. destruct (g a); simpl.
  - destruct (f a); simpl; by rewrite IH.
  - by rewrite andb_false_r.
Qed.

(** The loop of the source, started from any set [seen], yields the
    first occurrences whose lower-case form is not in [seen]. *)
Lemma fold_unique_step points seen unique :
  snd (fold_left unique_step points (seen, unique))
  = unique
    ++ List.filter (fun y => bool_decide (lower y ∉ seen)) (dedup_ci points).
Proof.
  revert seen unique.
  induction points as [|x points IH]; intros seen unique;
    cbn [fold_left dedup_ci List.filter].
  - by rewrite app_nil_r.
  - unfold unique_step at 2. destruct (bool_decide (lower x ∉ seen)) eqn:Hx.
    + rewrite IH, <- app_assoc. cbn [app]. do 2 f_equal.
      symmetry. apply filter_filter_ext. intros y. unfold ci_eqb.
      apply bool_decide_eq_true in Hx.
      destruct (bool_decide (lower x = lower y)) eqn:E; cbn [negb].
      * apply bool_decide_eq_true in E. rewrite andb_false_r.
        apply bool_decide_eq_false. rewrite <- E. intros H. apply H.
        apply elem_of_union_l. by apply elem_of_singleton.
      * apply bool_decide_eq_false in E. rewrite andb_true_r.
        apply bool_decide_ext. rewrite not_elem_of_union, not_elem_of_singleton.
        split; [tauto|]. intros Hy. split; [congruence|done].
    + rewrite IH. f_equal. symmetry.
      apply filter_filter_ext. intros y. unfold ci_eqb.
      apply bool_decide_eq_false in Hx.
      destruct (bool_decide (lower y ∉ seen)) eqn:E; cbn [andb]; [|done].
      apply bool_decide_eq_true in E. symmetry. apply negb_true_iff.
      apply bool_decide_eq_false. intros Heq. rewrite <- Heq in E. done.
Qed.

Lemma filter_true {A} (f : A -> bool) l :
  (forall x, f x = true) -> List.filter f l = l.
Proof.
  intros H. induction l as [|a l IH]; [done|]. simpl. by rewrite H, IH.
Qed.

(** The loop of the source is the removal of duplicates of the
    specification. *)
Lemma unique_points_dedup_ci points : unique_points points = dedup_ci points.
Proof.
  unfold unique_points. rewrite fold_unique_step. cbn [app].
  apply filter_true. intros y. apply bool_decide_eq_true. set_solver.
Qed.

Lemma filter_In_sub {A} (f : A -> bool) l x : In x (List.filter f l) -> In x l.
Proof. rewrite filter_In. tauto. Qed.

Lemma dedup_ci_In l x : In x (dedup_ci l) -> In x l.
Proof.
  induction l as [|a l IH]; [done|].
  simpl. intros [H|H]; [by left|]. right. apply IH. by eapply filter_In_sub.
Qed.

(** Nothing is lost but duplicates: every point is still there up to case. *)
Lemma dedup_ci_complete l x :
  In x l -> In (lower x) (map lower (dedup_ci l)).
Proof.
  induction l as [|a l IH]; [done|].
  intros [->|H]; [by left|]. simpl.
  destruct (decide (lower a = lower x)) as [E|E]; [by left|]. right.
  apply IH in H. apply in_map_iff in H as (y & Hy & Hin).
  apply in_map_iff. exists y. split; [done|].
  apply filter_In. split; [done|].
  unfold ci_eqb. apply negb_true_iff, bool_decide_eq_false. congruence.
Qed.

Lemma NoDup_map_filter {A B} (g : A -> B) (f : A -> bool) l :
  NoDup (map g l) -> NoDup (map g (List.filter f l)).
Proof.
  induction l as [|a l IH]; [done|].
  simpl. rewrite NoDup_cons. intros [Ha Hl]. destruct (f a); [|by apply IH].
  simpl. apply NoDup_cons. split; [|by apply IH].
  intros H. apply Ha. apply list_elem_of_In in H. apply list_elem_of_In.
  apply in_map_iff in H as (y & Hy & Hin). apply in_map_iff.
  exists y. split; [done|]. by eapply filter_In_sub.
Qed.

(** No two points that are left are equal up to case. *)
Lemma dedup_ci_NoDup l : NoDup (map lower (dedup_ci l)).
Proof.
  induction l as [|a l IH]; [constructor|].
  simpl. apply NoDup_cons. split; [|by apply NoDup_map_filter].
  intros H. apply list_elem_of_In, in_map_iff in H as (y & Hy & Hin).
  apply filter_In in Hin as [_ Hin].
  unfold ci_eqb in Hin. apply negb_true_iff, bool_decide_eq_false in Hin.
  congruence.
Qed.

(** Read from left to right: a point is kept exactly when no earlier point
    equals it up to case, and the points kept stay in order. *)
Lemma dedup_ci_snoc l x :
  dedup_ci (l ++ [x])
  = if existsb (fun y => ci_eqb y x) l then dedup_ci l else dedup_ci l ++ [x].
Proof.
  induction l as [|a l IH]; [done|].
  cbn [app dedup_ci existsb]. rewrite IH.
  destruct (existsb (fun y => ci_eqb y x) l).
  - by rewrite orb_true_r.
  - rewrite orb_false_r, List.filter_app. cbn [List.filter].
    destruct (ci_eqb a x); cbn [negb]; [by rewrite app_nil_r|done].
Qed.

Lemma NoDup_firstn {A} n (l : list A) : NoDup l -> NoDup (firstn n l).
Proof.
  intros H. rewrite <- (firstn_skipn n l) in H. by apply NoDup_app in H as [? _].
Qed.

(** ** Where the strings of the output come from *)

Lemma firstn_In_sub {A} n (l : list A) x : In x (firstn n l) -> In x l.
Proof.
  intros H. rewrite <- (firstn_skipn n l). apply in_or_app. by left.
Qed.

Lemma keyword_scan_In transcript_text x :
  In x (keyword_scan transcript_text) ->
  exists sentence, x = clean sentence /\ is_action_sentence sentence = true.
Proof.
  rewrite keyword_scan_eq. intros (p & <- & Hp)%in_map_iff.
  apply filter_In in Hp as [_ Hp]. by exists p.
Qed.

Lemma is_action_sentence_nonempty sentence :
  is_action_sentence sentence = true -> sentence <> [].
Proof. by intros H ->. Qed.

Lemma fold_point_step_In min_len fragments points x :
  In x (fold_left (point_step min_len) fragments points) ->
  In x points \/ exists p, x = clean p /\ min_len < length p.
Proof.
  rewrite fold_point_step. intros [H|H]%in_app_or; [by left|]. right.
  apply in_map_iff in H as (p & <- & Hp). apply filter_In in Hp as [_ Hp].
  exists p. split; [done|]. by apply Nat.ltb_lt.
Qed.

Lemma summary_points_In summary x :
  In x (summary_points summary) -> exists p, x = clean p /\ 15 < length p.
Proof.
  unfold summary_points. destruct (negb (is_empty summary)); [|done].
  by intros [[]|H]%fold_point_step_In.
Qed.

Lemma gather_points_In summary transcript x :
  In x (gather_points summary transcript) ->
  exists p, x = clean p /\ 15 < length p.
Proof.
  unfold gather_points. destruct (_ && _).
  - intros [H|(p & -> & Hp)]%fold_point_step_In.
    + by apply summary_points_In in H.
    + exists p. split; [done|lia].
  - apply summary_points_In.
Qed.

Lemma extract_key_points_In summary transcript x :
  In x (extract_key_points summary transcript) ->
  In x (gather_points summary transcript).
Proof.
  unfold extract_key_points. intros H%firstn_In_sub.
  rewrite unique_points_dedup_ci in H. by apply dedup_ci_In in H.
Qed.

(** [extract_action_items] by cases: the matched sentences themselves, all
    of them and in order, up to five; the fallback only when there is none. *)
Lemma extract_action_items_cases transcript_text :
  extract_action_items transcript_text
  = if is_empty transcript_text then []
    else if is_empty (keyword_scan transcript_text)
         then [fallback_item transcript_text]
         else firstn 5 (keyword_scan transcript_text).
Proof.
  unfold extract_action_items, fallback_item.
  destruct transcript_text as [|c t]; [done|]. cbn [is_empty negb].
  destruct (keyword_scan (c :: t)) as [|a l] eqn:E; [|done].
  cbn [is_empty andb app].
  destruct (contains (str "meeting") _); [done|].
  by destruct (contains (str "call") _).
Qed.

Lemma extract_action_items_In transcript_text x :
  In x (extract_action_items transcript_text) ->
  In x (keyword_scan transcript_text)
  \/ x = meeting_item \/ x = call_item \/ x = generic_item.
Proof.
  rewrite extract_action_items_cases.
  destruct (is_empty transcript_text); [done|].
  destruct (is_empty (keyword_scan transcript_text)).
  - intros [<-|[]]. right. unfold fallback_item.
    destruct (contains (str "meeting") _); [by left|].
    destruct (contains (str "call") _); [right; by left|right; by right].
  - intros H%firstn_In_sub. by left.
Qed.

(** ** [create_simple_summary] by cases *)

Lemma stripped_nonempty_In sentences x :
  In x (stripped_nonempty sentences) ->
  x <> [] /\ exists frag, In frag sentences /\ x = strip frag.
Proof.
  unfold stripped_nonempty. intros (frag & <- & H)%in_map_iff.
  apply filter_In in H as [Hin Hne]. split; [|by exists frag].
  intros E. by rewrite E in Hne.
Qed.

Lemma segment_In transcript_text x :
  In x (segment transcript_text) ->
  x <> [] /\ forall c, In c x -> sentence_delim c = false.
Proof.
  intros (Hne & frag & Hin & ->)%stripped_nonempty_In. split; [done|].
  intros c Hc%strip_In. by eapply re_split_no_delim.
Qed.

Lemma index_neg_last {A} (l : list A) x : index_neg (l ++ [x]) 1 = Ok x.
Proof.
  unfold index_neg, index. rewrite length_app. cbn [length].
  replace (1 <=? length l + 1) with true by (symmetry; apply Nat.leb_le; lia).
  cbn [Nat.leb andb]. replace (length l + 1 - 1) with (length l) by lia.
  rewrite nth_error_app2 by lia. by rewrite Nat.sub_diag.
Qed.

Lemma create_simple_summary_short transcript_text :
  length (strip transcript_text) < 10 ->
  create_simple_summary transcript_text = Ok short_clip_summary.
Proof.
  intros H. unfold create_simple_summary.
  replace (length (strip transcript_text) <? 10) with true
    by (symmetry; by apply Nat.ltb_lt).
  by rewrite orb_true_r.
Qed.

Lemma create_simple_summary_long transcript_text :
  10 <= length (strip transcript_text) ->
  3 <= length (segment transcript_text) ->
  exists first_part middle last_part,
    segment transcript_text = first_part :: middle ++ [last_part]
    /\ last_part <> []
    /\ create_simple_summary transcript_text
       = Ok (long_summary first_part last_part).
Proof.
  intros Hlen Hseg. unfold create_simple_summary.
  destruct transcript_text as [|c0 t0] eqn:Et; [simpl in Hlen; lia|].
  rewrite <- Et in *. clear Et c0 t0.
  replace (is_empty transcript_text) with false
    by (destruct transcript_text; [simpl in Hlen; lia|done]).
  replace (length (strip transcript_text) <? 10) with false
    by (symmetry; apply Nat.ltb_ge; lia).
  cbn [orb]. fold (segment transcript_text).
  replace (length (segment transcript_text) <=? 2) with false
    by (symmetry; apply Nat.leb_gt; lia).
  replace (1 <? length (segment transcript_text)) with true
    by (symmetry; apply Nat.ltb_lt; lia).
  pose proof (segment_In transcript_text) as Hin.
  destruct (segment transcript_text) as [|first_part rest]; [simpl in Hseg; lia|].
  destruct (exists_last (l := rest)) as (middle & last_part & ->).
  { intros ->. simpl in Hseg. lia. }
  exists first_part, middle, last_part.
  assert (last_part <> []) as Hlast.
  { apply (Hin last_part). right. apply in_or_app. right. by left. }
  split; [done|]. split; [done|].
  change (first_part :: middle ++ [last_part])
    with ((first_part :: middle) ++ [last_part]).
  rewrite index_neg_last. cbn.
  destruct last_part; [done|]. cbn. unfold long_summary.
  by rewrite <- !app_assoc.
Qed.

(** ** Fragments and cleaned sentences *)

Lemma split_runs_head_prefix delim s f fs :
  split_runs delim false s = f :: fs -> exists post, s = f ++ post.
Proof.
  revert f fs. induction s as [|c s IH]; intros f fs; cbn [split_runs].
  - intros [= <- <-]. by exists [].
  - destruct (delim c).
    + intros [= <- _]. by exists (c :: s).
    + destruct (split_runs delim false s) as [|f' fs'] eqn:E.
      * by destruct (split_runs_nonempty delim false s).
      * intros [= <- <-]. destruct (IH f' fs' eq_refl) as (post & ->).
        by exists post.
Qed.

(** Every fragment is a piece of the string that was split. *)
Lemma split_runs_substring delim b s frag :
  In frag (split_runs delim b s) -> exists pre post, s = pre ++ frag ++ post.
Proof.
  revert b frag. induction s as [|c s IH]; intros b frag; cbn [split_runs].
  - intros [<-|[]]. by exists [], [].
  - destruct (delim c).
    + assert (In frag (split_runs delim true s) ->
              exists pre post, c :: s = pre ++ frag ++ post) as Hrest.
      { intros (pre & post & ->)%IH. by exists (c :: pre), post. }
      destruct b; [done|]. intros [<-|H]; [by exists [], (c :: s)|by apply Hrest].
    + destruct (split_runs delim false s) as [|f fs] eqn:E.
      * by destruct (split_runs_nonempty delim false s).
      * intros [<-|H].
        -- destruct (split_runs_head_prefix _ _ _ _ E) as (post & ->).
           by exists [], post.
        -- destruct (IH false frag) as (pre & post & ->);
             [rewrite E; by right|].
           by exists (c :: pre), post.
Qed.

Lemma sentence_delim_upper_char c :
  sentence_delim (upper_char c) = sentence_delim c.
Proof. by_cases_on_char c. Qed.

Lemma summary_delim_sentence_delim c :
  summary_delim c = false -> sentence_delim c = false.
Proof. unfold summary_delim. by intros [? _]%orb_false_iff. Qed.

Lemma capitalize_no_delim s c :
  (forall d, In d s -> sentence_delim d = false) ->
  In c (capitalize s) -> sentence_delim c = false.
Proof.
  intros Hs. destruct s as [|a s]; [done|]. intros [<-|H].
  - rewrite sentence_delim_upper_char. apply Hs. by left.
  - apply in_map_iff in H as (d & <- & Hd).
    rewrite sentence_delim_lower_char. apply Hs. by right.
Qed.

Lemma capitalize_nonempty s : s <> [] -> capitalize s <> [].
Proof. by destruct s. Qed.

(** On a sentence without a period the test of [clean] fails and the period
    is added. *)
Lemma clean_no_delim s :
  (forall d, In d s -> sentence_delim d = false) ->
  clean s = capitalize s ++ str ".".
Proof.
  intros Hs. unfold clean.
  destruct (endswith (capitalize s) ".") eqn:E; [|done].
  apply endswith_In in E. by apply (capitalize_no_delim s _ Hs) in E.
Qed.

(** A matched sentence is the clean-up of a trimmed fragment of the
    transcript. *)
Lemma keyword_scan_fragment transcript_text x :
  In x (keyword_scan transcript_text) ->
  exists frag,
    In frag (re_split sentence_delim transcript_text)
    /\ x = clean (strip frag) /\ is_action_sentence (strip frag) = true.
Proof.
  rewrite keyword_scan_eq. intros (p & <- & Hp)%in_map_iff.
  apply filter_In in Hp as [(frag & <- & Hin)%in_map_iff Hp]. by exists frag.
Qed.

Lemma fold_point_step_fragment min_len fragments points x :
  In x (fold_left (point_step min_len) fragments points) ->
  In x points
  \/ exists frag,
       In frag fragments /\ x = clean (strip frag)
       /\ min_len < length (strip frag).
Proof.
  rewrite fold_point_step. intros [H|H]%in_app_or; [by left|]. right.
  apply in_map_iff in H as (p & <- & Hp).
  apply filter_In in Hp as [(frag & <- & Hin)%in_map_iff Hp].
  exists frag. split; [done|]. split; [done|]. by apply Nat.ltb_lt.
Qed.

(** A key point is the clean-up of a trimmed fragment of the summary or of
    the transcript, of more than 15 characters. *)
Lemma gather_points_fragment summary transcript x :
  In x (gather_points summary transcript) ->
  exists frag,
    (In frag (re_split summary_delim summary)
     \/ In frag (re_split sentence_delim transcript))
    /\ x = clean (strip frag) /\ 15 < length (strip frag).
Proof.
  assert (In x (summary_points summary) ->
          exists frag,
            (In frag (re_split summary_delim summary)
             \/ In frag (re_split sentence_delim transcript))
            /\ x = clean (strip frag) /\ 15 < length (strip frag)) as Hsum.
  { unfold summary_points. destruct (negb (is_empty summary)); [|done].
    intros [[]|(frag & Hin & -> & Hlen)]%fold_point_step_fragment.
    exists frag. split; [by left|done]. }
  unfold gather_points. destruct (_ && _); [|done].
  intros [H|(frag & Hin & -> & Hlen)]%fold_point_step_fragment; [by apply Hsum|].
  exists frag. split; [right; by eapply firstn_In_sub|]. split; [done|lia].
Qed.

(** ** ASCII text *)

Lemma is_ascii_lower_char c : is_ascii c = true -> is_ascii (lower_char c) = true.
Proof. by_cases_on_char c. Qed.

Lemma is_ascii_upper_char c : is_ascii c = true -> is_ascii (upper_char c) = true.
Proof. by_cases_on_char c. Qed.

Lemma is_ascii_not_upsilon_hook c :
  is_ascii c = true -> Ascii.eqb c upsilon_hook = false.
Proof. by_cases_on_char c. Qed.

Lemma ascii_text_app s1 s2 :
  ascii_text (s1 ++ s2) = ascii_text s1 && ascii_text s2.
Proof. apply forallb_app. Qed.

Lemma ascii_text_fragment delim s frag :
  ascii_text s = true -> In frag (re_split delim s) -> ascii_text frag = true.
Proof.
  intros Hs (pre & post & ->)%split_runs_substring.
  rewrite !ascii_text_app in Hs.
  by apply andb_true_iff in Hs as [_ [? _]%andb_true_iff].
Qed.

Lemma ascii_text_strip s : ascii_text s = true -> ascii_text (strip s) = true.
Proof.
  intros Hs. destruct (strip_decompose s) as (p & q & E & _).
  rewrite E, !ascii_text_app in Hs.
  by apply andb_true_iff in Hs as [_ [? _]%andb_true_iff].
Qed.

Lemma ascii_text_lower s : ascii_text s = true -> ascii_text (lower s) = true.
Proof.
  unfold ascii_text, lower. rewrite !forallb_forall.
  intros Hs c (d & <- & Hd)%in_map_iff. by apply is_ascii_lower_char, Hs.
Qed.

Lemma ascii_text_clean s : ascii_text s = true -> ascii_text (clean s) = true.
Proof.
  intros Hs. assert (ascii_text (capitalize s) = true) as Hc.
  { destruct s as [|c s]; [done|].
    change (is_ascii c && ascii_text s = true) in Hs.
    change (is_ascii (upper_char c) && ascii_text (lower s) = true).
    apply andb_true_iff in Hs as [Hc Hs].
    by rewrite (is_ascii_upper_char c Hc), (ascii_text_lower s Hs). }
  unfold clean. destruct (negb _); [|done].
  by rewrite ascii_text_app, Hc.
Qed.

(** In ASCII text the letters [A-Z] are all the uppercase letters. *)
Lemma tail_no_uppercase_ascii x :
  ascii_text x = true -> tail_lowercase x = true -> tail_no_uppercase x = true.
Proof.
  unfold tail_no_uppercase, tail_lowercase, ascii_text.
  destruct x as [|c x]; [done|]. cbn [tl forallb].
  intros [_ Ha]%andb_true_iff Hl. rewrite forallb_forall in *.
  intros d Hd. unfold is_uppercase_letter.
  rewrite (is_ascii_not_upsilon_hook d (Ha d Hd)), orb_false_r. by apply Hl.
Qed.

(** * The claims *)

(** ** C1: the summary of a transcript of three sentences or more *)

(** C1, as stated, fails: the transcript [a.b.c] has three sentences, but its
    trimmed length is 5, and the guard on the length answers first with the
    fixed string for short clips. *)
Lemma three_short_sentences_get_short_summary :
  segment (str "a.b.c") = [str "a"; str "b"; str "c"]
  /\ create_simple_summary (str "a.b.c")
     = Ok (str "Short audio clip with minimal content.")
  /\ create_simple_summary (str "a.b.c")
     <> Ok (str "The audio discusses a and concludes with c.").
Proof. vm_compute. repeat split; congruence. Qed.

(** C1 (amended): for every transcript whose trimmed length is at least 10
    and whose segmentation yields 3 or more sentences, [create_simple_summary]
    returns "The audio discusses " followed by the first sentence in lower
    case, " and concludes with " followed by the last sentence in lower case
    (which is there and is not empty), and a period; the result ends with a
    single trailing period. *)
Theorem create_simple_summary_three_sentences transcript_text :
  10 <= length (strip transcript_text) ->
  3 <= length (segment transcript_text) ->
  exists first_part middle last_part,
    segment transcript_text = first_part :: middle ++ [last_part]
    /\ create_simple_summary transcript_text
       = Ok (str "The audio discusses " ++ lower first_part
             ++ str " and concludes with " ++ lower last_part ++ str ".")
    /\ single_trailing_period
         (str "The audio discusses " ++ lower first_part
          ++ str " and concludes with " ++ lower last_part ++ str ".").
Proof.
  intros Hlen Hseg.
  destruct (create_simple_summary_long _ Hlen Hseg)
    as (first_part & middle & last_part & Es & Hlast & Hres).
  exists first_part, middle, last_part. split; [done|]. split; [done|].
  exists (str "The audio discusses " ++ lower first_part
          ++ str " and concludes with " ++ lower last_part).
  split; [by rewrite <- !app_assoc|].
  rewrite !app_assoc. rewrite endswith_app_nonempty.
  2:{ destruct last_part; [done|discriminate]. }
  rewrite endswith_lower_dot.
  destruct (endswith last_part ".") eqn:E; [|done].
  apply endswith_In in E.
  destruct (segment_In transcript_text last_part) as [_ Hd].
  { rewrite Es. right. apply in_or_app. right. by left. }
  by apply Hd in E.
Qed.

Lemma create_simple_summary_three_sentences_witness :
  exists first_part middle last_part,
    segment (str "Budget review first. Then the hiring plan! Any questions?")
    = first_part :: middle ++ [last_part]
    /\ create_simple_summary
         (str "Budget review first. Then the hiring plan! Any questions?")
       = Ok (str "The audio discusses " ++ lower first_part
             ++ str " and concludes with " ++ lower last_part ++ str ".")
    /\ single_trailing_period
         (str "The audio discusses " ++ lower first_part
          ++ str " and concludes with " ++ lower last_part ++ str ".").
Proof.
  apply (create_simple_summary_three_sentences
           (str "Budget review first. Then the hiring plan! Any questions?"));
    vm_compute; lia.
Defined.

(** ** C2: the format of the strings of both lists *)

(** C2, as stated, fails: a sentence that starts with a digit keeps it, and
    a digit is not an uppercase character. *)
Lemma digit_first_item_not_uppercase :
  extract_action_items (str "1 will call you") = [str "1 will call you."]
  /\ starts_upper (str "1 will call you.") = false
  /\ extract_key_points (str "2 teams merged this quarter") []
     = [str "2 teams merged this quarter."]
  /\ starts_upper (str "2 teams merged this quarter.") = false.
Proof. vm_compute. repeat split; reflexivity. Qed.

(** C2 (amended): for every transcript and summary, every string of the list
    of [extract_action_items] and of the list of [extract_key_points] is not
    empty, has a first character that is not one of the lowercase letters
    [a-z] of ASCII (so it is uppercase whenever it is an ASCII letter), and
    ends with a period. *)
Theorem output_strings_format transcript summary x :
  In x (extract_action_items transcript)
  \/ In x (extract_key_points summary transcript) ->
  starts_not_lower x = true /\ endswith x "." = true.
Proof.
  intros [H|H].
  - apply extract_action_items_In in H as [H | [-> | [-> | ->]]]; [|done..].
    apply keyword_scan_In in H as (p & -> & Hp).
    split; [|apply clean_endswith].
    apply clean_starts_not_lower. by apply is_action_sentence_nonempty.
  - apply extract_key_points_In, gather_points_In in H as (p & -> & Hp).
    split; [|apply clean_endswith].
    apply clean_starts_not_lower. intros ->. simpl in Hp. lia.
Qed.

Lemma output_strings_format_witness :
  starts_not_lower (str "1 will call you.") = true
  /\ endswith (str "1 will call you.") "." = true.
Proof.
  apply (output_strings_format (str "1 will call you") [] (str "1 will call you.")).
  left. vm_compute. by left.
Defined.

(** ** C4: duplicates go from the key points, not from the action items *)

(** C4: for every summary and transcript, [extract_key_points] removes the
    case-insensitive duplicates of the gathered points, keeping the first
    occurrence of each in order, and then keeps at most 5 of the result: the
    loop over the set [seen] computes [dedup_ci], read from left to right a
    point stays exactly when no earlier point equals it up to case, no two
    points of the result are equal up to case, and its length is at most 5.
    [extract_action_items] removes no duplicate: whenever a sentence matched,
    it returns the first 5 of all the matched sentences, and the same sentence
    said twice is returned twice. *)
Theorem key_points_deduplicated_action_items_not :
  (forall summary transcript,
     extract_key_points summary transcript
     = firstn 5 (dedup_ci (gather_points summary transcript)))
  /\ (forall points point,
        dedup_ci (points ++ [point])
        = if existsb (fun earlier => ci_eqb earlier point) points
          then dedup_ci points else dedup_ci points ++ [point])
  /\ (forall summary transcript,
        NoDup (map lower (extract_key_points summary transcript))
        /\ length (extract_key_points summary transcript) <= 5)
  /\ (forall transcript_text,
        extract_action_items transcript_text
        = if is_empty transcript_text then []
          else if is_empty (keyword_scan transcript_text)
               then [fallback_item transcript_text]
               else firstn 5 (keyword_scan transcript_text))
  /\ extract_action_items (str "We will ship it. We will ship it.")
     = [str "We will ship it."; str "We will ship it."]
  /\ extract_key_points (str "We will ship it today; WE WILL SHIP IT TODAY") []
     = [str "We will ship it today."].
Proof.
  split; [|split; [|split; [|split; [|split]]]].
  - intros summary transcript. unfold extract_key_points.
    by rewrite unique_points_dedup_ci.
  - apply dedup_ci_snoc.
  - intros summary transcript. unfold extract_key_points. split.
    + rewrite <- firstn_map. apply NoDup_firstn.
      rewrite unique_points_dedup_ci. apply dedup_ci_NoDup.
    + apply firstn_le_length.
  - apply extract_action_items_cases.
  - by vm_compute.
  - by vm_compute.
Qed.

(** ** C5: the transcript as a second source of key points *)

Lemma firstn_filter_all {A} (P : A -> bool) n (l : list A) :
  forallb P (firstn n l) = true -> firstn n (List.filter P l) = firstn n l.
Proof.
  revert l. induction n as [|n IH]; intros l; [done|].
  destruct l as [|a l]; [done|]. cbn [firstn forallb List.filter].
  intros [-> H]%andb_true_iff. cbn [firstn]. by rewrite IH.
Qed.

(** Where the code does what C5 says: when none of the first 3 fragments of
    the split is blank, the first 3 fragments are the first 3 sentences. *)
Lemma transcript_points_without_blank_fragment summary transcript :
  length (summary_points summary) < 3 ->
  transcript <> [] ->
  forallb (fun frag => negb (is_empty (strip frag)))
    (firstn 3 (re_split sentence_delim transcript)) = true ->
  gather_points summary transcript
  = summary_points summary ++ first_three_sentence_points transcript.
Proof.
  intros Hlen Hne Hblank. unfold gather_points.
  replace (length (summary_points summary) <? 3) with true
    by (symmetry; by apply Nat.ltb_lt).
  destruct transcript as [|c t] eqn:E; [done|]. rewrite <- E in *.
  replace (is_empty transcript) with false by (by rewrite E).
  cbn [negb andb]. rewrite fold_point_step. f_equal.
  unfold first_three_sentence_points, segment, stripped_nonempty.
  by rewrite firstn_map, (firstn_filter_all _ 3 _ Hblank).
Qed.

(** C5 (the code misses a case): the loop is over the first 3 fragments of
    [re.split], not over the first 3 sentences.  On a transcript that starts
    with a run of delimiters the first fragment is the empty string before
    the run; it takes one of the 3 places, and the third sentence, of more
    than 20 characters, is not read: the code gathers 2 points where C5, and
    the comment "Take first 3 sentences" of the source, give 3. *)
Theorem leading_delimiter_loses_third_sentence :
  segment (str "...The first sentence is long enough. The second sentence is long enough. The third sentence is long enough.")
  = [ str "The first sentence is long enough";
      str "The second sentence is long enough";
      str "The third sentence is long enough" ]
  /\ first_three_sentence_points (str "...The first sentence is long enough. The second sentence is long enough. The third sentence is long enough.")
     = [ str "The first sentence is long enough.";
         str "The second sentence is long enough.";
         str "The third sentence is long enough." ]
  /\ firstn 3 (re_split sentence_delim (str "...The first sentence is long enough. The second sentence is long enough. The third sentence is long enough."))
     = [ []; str "The first sentence is long enough";
         str " The second sentence is long enough" ]
  /\ gather_points [] (str "...The first sentence is long enough. The second sentence is long enough. The third sentence is long enough.")
     = [ str "The first sentence is long enough.";
         str "The second sentence is long enough." ]
  /\ extract_key_points [] (str "...The first sentence is long enough. The second sentence is long enough. The third sentence is long enough.")
     = [ str "The first sentence is long enough.";
         str "The second sentence is long enough." ].
Proof. by vm_compute. Qed.

(** Without the leading run the same three sentences give three points. *)
Example three_sentences_three_points :
  extract_key_points []
    (str "The first sentence is long enough. The second sentence is long enough. The third sentence is long enough.")
  = [ str "The first sentence is long enough.";
      str "The second sentence is long enough.";
      str "The third sentence is long enough." ].
Proof. by vm_compute. Qed.

(** A short first sentence is one of the three all the same, in the code as
    in C5: the second fragment alone passes. *)
Example transcript_points_example :
  extract_key_points (str "Quarterly results were strong")
    (str "ok. The new pricing model starts in March. x. The fourth one is never looked at at all.")
  = [str "Quarterly results were strong.";
     str "The new pricing model starts in march."].
Proof. by vm_compute. Qed.

(** ** C6: at most five strings in either list *)

(** C6: for every transcript and summary, the list of [extract_action_items]
    and the list of [extract_key_points] have at most 5 elements each. *)
Theorem output_lists_at_most_five transcript summary :
  length (extract_action_items transcript) <= 5
  /\ length (extract_key_points summary transcript) <= 5.
Proof.
  split.
  - unfold extract_action_items. destruct (is_empty transcript); [simpl; lia|].
    apply firstn_le_length.
  - apply firstn_le_length.
Qed.

(** Six sentences match, five are returned. *)
Example six_matches_five_items :
  length (keyword_scan
            (str "Will one. Will two. Will three. Will four. Will five. Will six."))
  = 6
  /\ extract_action_items
       (str "Will one. Will two. Will three. Will four. Will five. Will six.")
     = [str "Will one."; str "Will two."; str "Will three.";
        str "Will four."; str "Will five."].
Proof. by vm_compute. Qed.

(** ** C9: very short transcripts *)

(** C9: for every transcript whose trimmed length is less than 10,
    [create_simple_summary] returns "Short audio clip with minimal
    content.". *)
Theorem short_transcript_fixed_summary transcript_text :
  length (strip transcript_text) < 10 ->
  create_simple_summary transcript_text
  = Ok (str "Short audio clip with minimal content.").
Proof. apply create_simple_summary_short. Qed.

Lemma short_transcript_fixed_summary_witness :
  create_simple_summary (str "  Hi all.  ")
  = Ok (str "Short audio clip with minimal content.").
Proof.
  apply (short_transcript_fixed_summary (str "  Hi all.  ")).
  vm_compute. lia.
Defined.

(** ** C7: no error outcome *)

(** [create_simple_summary] never raises: its two list accesses are in
    range. *)
Lemma create_simple_summary_total transcript_text :
  exists summary, create_simple_summary transcript_text = Ok summary.
Proof.
  destruct (Nat.lt_ge_cases (length (strip transcript_text)) 10) as [H|H].
  { eexists. by apply create_simple_summary_short. }
  destruct (Nat.le_gt_cases (length (segment transcript_text)) 2) as [H2|H2].
  - unfold create_simple_summary. destruct (_ || _); [by eexists|].
    fold (segment transcript_text).
    replace (length (segment transcript_text) <=? 2) with true
      by (symmetry; by apply Nat.leb_le).
    by eexists.
  - destruct (create_simple_summary_long transcript_text H H2)
      as (f & m & l & _ & _ & E).
    by eexists.
Qed.

(** C7: [create_simple_summary], [extract_action_items] and
    [extract_key_points] give a result, never an error, on every string:
    the first, the only one with operations that can raise, always returns
    normally; the other two are built from total operations alone.  On the
    empty summary and the empty transcript they give "Short audio clip with
    minimal content.", the empty list and the empty list. *)
Theorem analyzer_total_and_empty_inputs :
  (forall transcript_text,
     exists summary, create_simple_summary transcript_text = Ok summary)
  /\ (forall transcript_text,
        exists items, extract_action_items transcript_text = items)
  /\ (forall summary transcript,
        exists points, extract_key_points summary transcript = points)
  /\ create_simple_summary []
     = Ok (str "Short audio clip with minimal content.")
  /\ extract_action_items [] = []
  /\ extract_key_points [] [] = [].
Proof.
  split; [apply create_simple_summary_total|].
  split; [intros; by eexists|].
  split; [intros; by eexists|].
  by vm_compute.
Qed.

(** ** C8: the transcript is only a second source *)

(** C8: for every summary that gives 3 or more points by itself, and any two
    transcripts, [extract_key_points] returns the same list. *)
Theorem key_points_ignore_transcript summary transcript1 transcript2 :
  3 <= length (summary_points summary) ->
  extract_key_points summary transcript1
  = extract_key_points summary transcript2.
Proof.
  intros H. unfold extract_key_points, gather_points.
  replace (length (summary_points summary) <? 3) with false
    by (symmetry; by apply Nat.ltb_ge).
  reflexivity.
Qed.

Lemma key_points_ignore_transcript_witness :
  extract_key_points
    (str "Revenue grew by ten percent. Costs stayed flat this year; hiring resumes in the spring")
    []
  = extract_key_points
      (str "Revenue grew by ten percent. Costs stayed flat this year; hiring resumes in the spring")
      (str "A transcript sentence that is long enough to be a point.").
Proof.
  apply (key_points_ignore_transcript
           (str "Revenue grew by ten percent. Costs stayed flat this year; hiring resumes in the spring")).
  vm_compute. lia.
Defined.

(** With fewer than 3 points from the summary the transcript does count. *)
Example key_points_use_transcript :
  extract_key_points (str "Revenue grew by ten percent") []
  = [str "Revenue grew by ten percent."]
  /\ extract_key_points (str "Revenue grew by ten percent")
       (str "A transcript sentence that is long enough to be a point.")
     = [str "Revenue grew by ten percent.";
        str "A transcript sentence that is long enough to be a point."].
Proof. by vm_compute. Qed.

(** ** C10: the rest of a cleaned sentence is in lower case *)

(** C10, as stated, fails outside ASCII: [lower()] leaves an uppercase letter
    that has no lowercase form as it is.  With U+03D2 in a matched sentence
    the item has this uppercase letter after its first character. *)
Lemma upsilon_hook_stays_uppercase :
  keyword_scan (str "We will call " ++ upsilon_hook :: str " team")
  = [str "We will call " ++ upsilon_hook :: str " team."]
  /\ extract_action_items (str "We will call " ++ upsilon_hook :: str " team")
     = [str "We will call " ++ upsilon_hook :: str " team."]
  /\ is_uppercase_letter upsilon_hook = true
  /\ tail_no_uppercase (str "We will call " ++ upsilon_hook :: str " team.")
     = false.
Proof. by vm_compute. Qed.

(** C10 (amended): for every transcript and summary of ASCII text, every
    action item that comes from a matched sentence and every key point has
    no uppercase letter after its first character, as the clean-up puts the
    whole rest of the sentence in lower case. *)
Theorem cleaned_ascii_strings_tail_lowercase transcript summary x :
  ascii_text transcript = true ->
  ascii_text summary = true ->
  In x (keyword_scan transcript)
  \/ In x (extract_key_points summary transcript) ->
  tail_no_uppercase x = true.
Proof.
  intros Ht Hs Hx.
  assert (exists delim s frag,
            ascii_text s = true /\ In frag (re_split delim s)
            /\ x = clean (strip frag)) as (delim & s & frag & Ha & Hin & ->).
  { destruct Hx as [H|H].
    - apply keyword_scan_fragment in H as (frag & Hin & -> & _).
      by exists sentence_delim, transcript, frag.
    - apply extract_key_points_In, gather_points_fragment in H
        as (frag & [Hin|Hin] & -> & _).
      + by exists summary_delim, summary, frag.
      + by exists sentence_delim, transcript, frag. }
  apply tail_no_uppercase_ascii; [|apply clean_tail_lowercase].
  apply ascii_text_clean, ascii_text_strip. by eapply ascii_text_fragment.
Qed.

Lemma cleaned_ascii_strings_tail_lowercase_witness :
  tail_no_uppercase (str "I need to call john tomorrow.") = true.
Proof.
  apply (cleaned_ascii_strings_tail_lowercase
           (str "I need to call John tomorrow. The weather is nice.") []
           (str "I need to call john tomorrow.")).
  - by vm_compute.
  - done.
  - left. vm_compute. by left.
Defined.

(** The scenario of the specification: "John" comes out as "john", and the
    sentence without a keyword is left out. *)
Example call_john_scenario :
  extract_action_items (str "I need to call John tomorrow. The weather is nice.")
  = [str "I need to call john tomorrow."].
Proof. by vm_compute. Qed.

(** ** C3: the fallback item for meetings *)

(** *** Substrings *)

Lemma startswith_true s p :
  startswith s p = true <-> exists post, s = p ++ post.
Proof.
  revert s. induction p as [|a p IH]; intros s.
  - destruct s; simpl; split; eauto.
  - destruct s as [|b s]; simpl.
    + split; [done|]. by intros (post & ?).
    + rewrite andb_true_iff, Ascii.eqb_eq, IH. split.
      * intros [-> (post & ->)]. by exists post.
      * intros (post & [= -> ->]). split; [done|]. by exists post.
Qed.

Lemma contains_true sub s :
  contains sub s = true <-> exists pre post, s = pre ++ sub ++ post.
Proof.
  induction s as [|c s IH].
  - cbn [contains]. rewrite orb_false_r, startswith_true. split.
    + intros (post & E). by exists [], post.
    + intros (pre & post & E). destruct pre; [by exists post|done].
  - cbn [contains]. rewrite orb_true_iff, startswith_true, IH. split.
    + intros [(post & E)|(pre & post & ->)].
      * by exists [], post.
      * by exists (c :: pre), post.
    + intros (pre & post & E). destruct pre as [|d pre].
      * left. by exists post.
      * right. injection E as _ ->. by exists pre, post.
Qed.

(** *** A word without delimiters stays whole in one fragment *)

Lemma split_runs_word_head delim b w post :
  (forall c, In c w -> delim c = false) ->
  exists q rest, split_runs delim b (w ++ post) = (w ++ q) :: rest.
Proof.
  revert b. induction w as [|c w IH]; intros b Hw.
  - cbn [app]. pose proof (split_runs_nonempty delim b post) as H.
    destruct (split_runs delim b post) as [|f fs]; [done|]. by exists f, fs.
  - cbn [app split_runs]. rewrite (Hw c) by (by left).
    destruct (IH false) as (q & rest & ->); [intros; apply Hw; by right|].
    by exists q, rest.
Qed.

Lemma split_runs_word delim b pre w post :
  (forall c, In c w -> delim c = false) ->
  exists frag p q,
    In frag (split_runs delim b (pre ++ w ++ post)) /\ frag = p ++ w ++ q.
Proof.
  intros Hw. revert b. induction pre as [|c pre IH]; intros b.
  - destruct (split_runs_word_head delim b w post Hw) as (q & rest & E).
    exists (w ++ q), [], q. cbn [app]. rewrite E. split; [by left|done].
  - cbn [app split_runs]. destruct (delim c).
    + destruct (IH true) as (frag & p & q & Hin & ->).
      exists (p ++ w ++ q), p, q. split; [|done].
      destruct b; [done|by right].
    + destruct (IH false) as (frag & p & q & Hin & ->).
      destruct (split_runs delim false (pre ++ w ++ post)) as [|f fs]; [done|].
      destruct Hin as [->|Hin].
      * exists (c :: p ++ w ++ q), (c :: p), q. split; [by left|done].
      * exists (p ++ w ++ q), p, q. split; [by right|done].
Qed.

(** *** A word without white space survives [strip] *)

Lemma lstrip_word p w q :
  w <> [] -> (forall c, In c w -> is_space c = false) ->
  exists p', lstrip (p ++ w ++ q) = p' ++ w ++ q.
Proof.
  intros Hne Hw. induction p as [|a p IH].
  - exists []. destruct w as [|c w]; [done|].
    cbn [app lstrip]. by rewrite (Hw c) by (by left).
  - cbn [app lstrip]. destruct (is_space a); [done|]. by exists (a :: p).
Qed.

Lemma strip_word p w q :
  w <> [] -> (forall c, In c w -> is_space c = false) ->
  exists p' q', strip (p ++ w ++ q) = p' ++ w ++ q'.
Proof.
  intros Hne Hw. unfold strip, rstrip.
  destruct (lstrip_word p w q Hne Hw) as (p' & ->).
  rewrite !rev_app_distr, <- app_assoc.
  destruct (lstrip_word (rev q) (rev w) (rev p')) as (q' & ->).
  - intros E. apply Hne. by rewrite <- (rev_involutive w), E.
  - intros c Hc. apply Hw. by apply in_rev.
  - exists p', (rev q').
    by rewrite !rev_app_distr, !rev_involutive, <- app_assoc.
Qed.

(** *** "meeting" is a keyword of the scan *)

Lemma meeting_chars c :
  In (lower_char c) (str "meeting") ->
  sentence_delim c = false /\ is_space c = false.
Proof.
  rewrite <- sentence_delim_lower_char, <- is_space_lower_char.
  generalize (lower_char c). intros d H. simpl in H.
  repeat (destruct H as [<-|H]; [by vm_compute|]). done.
Qed.

(** Every transcript that contains "meeting", in any case, has a sentence
    that the scan for keywords keeps: the word is free of delimiters and of
    white space, so it lies whole in one trimmed sentence, of 7 characters
    or more, and "meeting" is one of [action_keywords]. *)
Lemma meeting_always_matched transcript_text :
  contains (str "meeting") (lower transcript_text) = true ->
  keyword_scan transcript_text <> [].
Proof.
  intros (pre & post & E)%contains_true.
  unfold lower in E.
  apply map_eq_app in E as (pre' & rest & -> & _ & E).
  apply map_eq_app in E as (w & post' & -> & Ew & _).
  assert (forall c, In c w -> sentence_delim c = false /\ is_space c = false)
    as Hw.
  { intros c Hc. apply meeting_chars. rewrite <- Ew. by apply in_map. }
  assert (w <> []) as Hne by (by intros ->).
  destruct (split_runs_word sentence_delim false pre' w post')
    as (frag & p & q & Hin & ->); [intros; by apply Hw|].
  destruct (strip_word p w q Hne) as (p' & q' & Es); [intros; by apply Hw|].
  rewrite keyword_scan_eq.
  assert (In (p' ++ w ++ q')
            (List.filter is_action_sentence
               (map strip (re_split sentence_delim (pre' ++ w ++ post')))))
    as Hkept.
  { apply filter_In. split.
    - rewrite <- Es. by apply in_map.
    - unfold is_action_sentence. apply andb_true_iff. split.
      + apply negb_true_iff, Nat.ltb_ge.
        rewrite !length_app, <- (length_map lower_char w), Ew. simpl. lia.
      + apply existsb_exists. exists (str "meeting"). split.
        * unfold action_keywords. apply in_map. simpl. tauto.
        * apply contains_true. exists (lower p'), (lower q').
          rewrite !lower_app. by rewrite <- Ew. }
  destruct (List.filter _ _); [done|discriminate].
Qed.

(** So the branch that adds "Follow up on meeting discussion." is never
    taken: with "meeting" in the transcript the result is made of matched
    sentences. *)
Lemma meeting_fallback_unreachable transcript_text :
  contains (str "meeting") (lower transcript_text) = true ->
  extract_action_items transcript_text
  = firstn 5 (keyword_scan transcript_text)
  /\ keyword_scan transcript_text <> [].
Proof.
  intros H. pose proof (meeting_always_matched _ H) as Hscan.
  split; [|done]. rewrite extract_action_items_cases.
  destruct transcript_text; [done|]. cbn [is_empty].
  by destruct (keyword_scan _).
Qed.

(** The fallback for calls, next in line, can be reached: "call" is too
    short for the scan when it is a sentence by itself. *)
Example call_fallback_reached :
  extract_action_items (str "Call.") = [str "Review call notes and next steps."]
  /\ extract_action_items (str "Meeting.") = [str "Meeting."].
Proof. by vm_compute. Qed.

(** * Further properties of the analyzer *)

Lemma no_sentence_delim_capitalize s :
  (forall d, In d s -> sentence_delim d = false) ->
  no_sentence_delim (capitalize s) = true.
Proof.
  intros Hs. apply forallb_forall. intros c Hc.
  by rewrite (capitalize_no_delim s c Hs Hc).
Qed.

(** ** One period, at the end *)

(** X1: Every string of both lists is a non-empty body without [.], [!] or
    [?], followed by one period: the sentences come from a split on these
    characters, so the test [endswith('.')] of the clean-up never holds and no
    string ends with two punctuation marks. *)
Theorem output_strings_one_period transcript summary x :
  In x (extract_action_items transcript)
  \/ In x (extract_key_points summary transcript) ->
  exists body,
    x = body ++ str "." /\ body <> [] /\ no_sentence_delim body = true.
Proof.
  assert (forall delim frag s,
            (forall c, delim c = false -> sentence_delim c = false) ->
            In frag (re_split delim s) -> strip frag <> [] ->
            exists body,
              clean (strip frag) = body ++ str "." /\ body <> []
              /\ no_sentence_delim body = true) as Hclean.
  { intros delim frag s Hd Hin Hne.
    assert (forall d, In d (strip frag) -> sentence_delim d = false) as Hfree.
    { intros d Hdin%strip_In. apply Hd. by eapply re_split_no_delim. }
    exists (capitalize (strip frag)). split; [by apply clean_no_delim|].
    split; [by apply capitalize_nonempty|by apply no_sentence_delim_capitalize]. }
  intros [H|H].
  - apply extract_action_items_In in H as [H | [-> | [-> | ->]]].
    + apply keyword_scan_fragment in H as (frag & Hin & -> & Hp).
      apply (Hclean sentence_delim frag transcript); [done|done|].
      by apply is_action_sentence_nonempty.
    + by exists (str "Follow up on meeting discussion").
    + by exists (str "Review call notes and next steps").
    + by exists (str "Review recording content for further action").
  - apply extract_key_points_In, gather_points_fragment in H
      as (frag & [Hin|Hin] & -> & Hlen).
    + apply (Hclean summary_delim frag summary);
        [apply summary_delim_sentence_delim|done|].
      intros E. rewrite E in Hlen. simpl in Hlen. lia.
    + apply (Hclean sentence_delim frag transcript); [done|done|].
      intros E. rewrite E in Hlen. simpl in Hlen. lia.
Qed.

Lemma output_strings_one_period_witness :
  exists body,
    str "Send it now." = body ++ str "." /\ body <> []
    /\ no_sentence_delim body = true.
Proof.
  apply (output_strings_one_period (str "Is it READY?! Send it now!") []
           (str "Send it now.")).
  left. vm_compute. by left.
Defined.

(** ** The strings are taken from the input *)

Lemma upper_lower_char c : upper_char (lower_char c) = upper_char c.
Proof. by_cases_on_char c. Qed.

Lemma lower_upper_char c : lower_char (upper_char c) = lower_char c.
Proof. by_cases_on_char c. Qed.

Lemma lower_char_idem c : lower_char (lower_char c) = lower_char c.
Proof. by_cases_on_char c. Qed.

Lemma lower_idem s : lower (lower s) = lower s.
Proof.
  unfold lower. rewrite map_map. apply map_ext. intros c. apply lower_char_idem.
Qed.

Lemma lower_capitalize s : lower (capitalize s) = lower s.
Proof.
  destruct s as [|c s]; [done|].
  cbn [capitalize lower map]. fold (lower s) (lower (lower s)).
  by rewrite lower_upper_char, lower_idem.
Qed.

(** The clean-up of a trimmed fragment of [s], without its period and in
    lower case, occurs in [s] in lower case. *)
Lemma cleaned_fragment_occurs delim s frag :
  (forall c, delim c = false -> sentence_delim c = false) ->
  In frag (re_split delim s) ->
  exists body,
    clean (strip frag) = body ++ str "."
    /\ contains (lower body) (lower s) = true.
Proof.
  intros Hd Hin. exists (capitalize (strip frag)). split.
  - apply clean_no_delim. intros d Hdin%strip_In. apply Hd.
    by eapply re_split_no_delim.
  - rewrite lower_capitalize. apply contains_true.
    apply split_runs_substring in Hin as (pre & post & ->).
    destruct (strip_decompose frag) as (p & q & E & _).
    exists (lower (pre ++ p)), (lower (q ++ post)).
    rewrite <- !lower_app. f_equal. rewrite E at 1.
    by rewrite <- !app_assoc.
Qed.

(** X2: For a transcript of ASCII text [extract_action_items] invents no
    text: an item is one of the three fixed items or, in lower case and
    without its final period, a passage of the transcript in lower case. *)
Theorem action_items_from_transcript transcript x :
  ascii_text transcript = true ->
  In x (extract_action_items transcript) ->
  x = meeting_item \/ x = call_item \/ x = generic_item
  \/ exists body,
       x = body ++ str "."
       /\ contains (lower body) (lower transcript) = true.
Proof.
  intros _ [H|H]%extract_action_items_In; [|tauto].
  right. right. right.
  apply keyword_scan_fragment in H as (frag & Hin & -> & _).
  by apply (cleaned_fragment_occurs sentence_delim).
Qed.

Lemma action_items_from_transcript_witness :
  str "Please email the report." = meeting_item
  \/ str "Please email the report." = call_item
  \/ str "Please email the report." = generic_item
  \/ exists body,
       str "Please email the report." = body ++ str "."
       /\ contains (lower body)
            (lower (str "Hi.  PLEASE email the Report ! Bye")) = true.
Proof.
  apply (action_items_from_transcript
           (str "Hi.  PLEASE email the Report ! Bye")
           (str "Please email the report.")).
  - by vm_compute.
  - vm_compute. by left.
Defined.

(** X3: For a summary and a transcript of ASCII text [extract_key_points]
    invents no text: a key point, in lower case and without its final period,
    is a passage of the summary or of the transcript in lower case. *)
Theorem key_points_from_inputs summary transcript x :
  ascii_text summary = true ->
  ascii_text transcript = true ->
  In x (extract_key_points summary transcript) ->
  exists body,
    x = body ++ str "."
    /\ (contains (lower body) (lower summary) = true
        \/ contains (lower body) (lower transcript) = true).
Proof.
  intros _ _.
  intros (frag & [Hin|Hin] & -> & _)%extract_key_points_In%gather_points_fragment.
  - destruct (cleaned_fragment_occurs summary_delim summary frag)
      as (body & E & H); [apply summary_delim_sentence_delim|done|].
    exists body. split; [done|by left].
  - destruct (cleaned_fragment_occurs sentence_delim transcript frag)
      as (body & E & H); [done|done|].
    exists body. split; [done|by right].
Qed.

Lemma key_points_from_inputs_witness :
  exists body,
    str "The launch moves to friday." = body ++ str "."
    /\ (contains (lower body) (lower (str "Agreed; the launch moves to Friday"))
        = true
        \/ contains (lower body) (lower []) = true).
Proof.
  apply (key_points_from_inputs (str "Agreed; the launch moves to Friday") []
           (str "The launch moves to friday.")).
  - by vm_compute.
  - done.
  - vm_compute. by left.
Defined.

(** ** At least one action item *)

Lemma extract_action_items_is_empty transcript :
  is_empty (extract_action_items transcript) = is_empty transcript.
Proof.
  rewrite extract_action_items_cases.
  destruct transcript as [|c t]; [done|]. cbn [is_empty].
  by destruct (keyword_scan (c :: t)).
Qed.

(** X4: [extract_action_items] returns the empty list for the empty transcript
    and for no other: a transcript without a matched sentence gets one of the
    fixed items. *)
Theorem action_items_empty_only_for_empty transcript :
  is_empty (extract_action_items transcript) = is_empty transcript.
Proof. apply extract_action_items_is_empty. Qed.

(** ** The case of the input does not matter *)

Lemma summary_delim_lower_char c :
  summary_delim (lower_char c) = summary_delim c.
Proof. by_cases_on_char c. Qed.

Lemma split_runs_lower delim b s :
  (forall c, delim (lower_char c) = delim c) ->
  split_runs delim b (lower s) = map lower (split_runs delim b s).
Proof.
  intros Hd. revert b. induction s as [|c s IH]; intros b; [done|].
  cbn [lower map split_runs]. fold (lower s). rewrite Hd.
  destruct (delim c).
  - destruct b; by rewrite IH.
  - rewrite IH. by destruct (split_runs delim false s).
Qed.

Lemma lstrip_lower s : lstrip (lower s) = lower (lstrip s).
Proof.
  induction s as [|c s IH]; [done|].
  cbn [lower map lstrip]. fold (lower s). rewrite is_space_lower_char.
  by destruct (is_space c).
Qed.

Lemma lower_rev s : lower (rev s) = rev (lower s).
Proof. apply map_rev. Qed.

Lemma strip_lower s : strip (lower s) = lower (strip s).
Proof.
  unfold strip, rstrip.
  by rewrite lstrip_lower, <- lower_rev, lstrip_lower, lower_rev.
Qed.

Lemma capitalize_lower s : capitalize (lower s) = capitalize s.
Proof.
  destruct s as [|c s]; [done|].
  cbn [lower map capitalize]. fold (lower s) (lower (lower s)).
  by rewrite upper_lower_char, lower_idem.
Qed.

Lemma clean_lower s : clean (lower s) = clean s.
Proof. unfold clean. by rewrite capitalize_lower. Qed.

Lemma is_action_sentence_lower s :
  is_action_sentence (lower s) = is_action_sentence s.
Proof.
  unfold is_action_sentence. rewrite lower_idem. unfold lower at 1.
  by rewrite length_map.
Qed.

Lemma map_filter_map {A B} (g : A -> A) (P : A -> bool) (h : A -> B) l :
  (forall x, P (g x) = P x) -> (forall x, h (g x) = h x) ->
  map h (List.filter P (map g l)) = map h (List.filter P l).
Proof.
  intros HP Hh. induction l as [|a l IH]; [done|].
  cbn [map List.filter]. rewrite HP. destruct (P a); [|done].
  cbn [map]. by rewrite Hh, IH.
Qed.

(** The candidates of a loop over fragments do not change when the fragments
    are put in lower case. *)
Lemma cleaned_candidates_lower (P : pystr -> bool) fragments :
  (forall s, P (lower s) = P s) ->
  map clean (List.filter P (map strip (map lower fragments)))
  = map clean (List.filter P (map strip fragments)).
Proof.
  intros HP. rewrite !map_map.
  rewrite (map_ext (fun x => strip (lower x)) (fun x => lower (strip x)))
    by apply strip_lower.
  rewrite <- (map_map strip lower).
  rewrite (map_filter_map lower P clean) by (done || apply clean_lower).
  done.
Qed.

Lemma keyword_scan_lower transcript_text :
  keyword_scan (lower transcript_text) = keyword_scan transcript_text.
Proof.
  rewrite !keyword_scan_eq. unfold re_split.
  rewrite split_runs_lower by apply sentence_delim_lower_char.
  apply cleaned_candidates_lower, is_action_sentence_lower.
Qed.

Lemma is_empty_lower s : is_empty (lower s) = is_empty s.
Proof. by destruct s. Qed.

Lemma fold_point_step_lower min_len fragments points :
  fold_left (point_step min_len) (map lower fragments) points
  = fold_left (point_step min_len) fragments points.
Proof.
  rewrite !fold_point_step. f_equal.
  apply (cleaned_candidates_lower (fun p => min_len <? length p)).
  intros s. unfold lower. by rewrite length_map.
Qed.

Lemma summary_points_lower summary :
  summary_points (lower summary) = summary_points summary.
Proof.
  unfold summary_points. rewrite is_empty_lower.
  destruct (negb (is_empty summary)); [|done]. unfold re_split.
  rewrite split_runs_lower by apply summary_delim_lower_char.
  apply fold_point_step_lower.
Qed.

Lemma gather_points_lower summary transcript :
  gather_points (lower summary) (lower transcript)
  = gather_points summary transcript.
Proof.
  unfold gather_points. rewrite summary_points_lower, is_empty_lower.
  destruct (_ && _); [|done]. unfold re_split.
  rewrite split_runs_lower by apply sentence_delim_lower_char.
  rewrite firstn_map. apply fold_point_step_lower.
Qed.

Lemma extraction_of_lower summary transcript :
  extract_action_items (lower transcript) = extract_action_items transcript
  /\ extract_key_points (lower summary) (lower transcript)
     = extract_key_points summary transcript.
Proof.
  split.
  - rewrite !extract_action_items_cases.
    rewrite is_empty_lower, keyword_scan_lower.
    unfold fallback_item. by rewrite lower_idem.
  - unfold extract_key_points. by rewrite gather_points_lower.
Qed.

(** X5: Upper and lower case in the input make no difference to the action
    items and the key points: two transcripts, and two summaries, that are
    equal up to case give the same two lists. *)
Theorem extraction_ignores_case summary summary' transcript transcript' :
  lower summary = lower summary' ->
  lower transcript = lower transcript' ->
  extract_action_items transcript = extract_action_items transcript'
  /\ extract_key_points summary transcript
     = extract_key_points summary' transcript'.
Proof.
  intros Es Et.
  destruct (extraction_of_lower summary transcript) as [<- <-].
  destruct (extraction_of_lower summary' transcript') as [<- <-].
  by rewrite Es, Et.
Qed.

Lemma extraction_ignores_case_witness :
  extract_action_items (str "WE MUST SHIP BY FRIDAY. thanks all")
  = extract_action_items (str "we must ship by friday. Thanks All")
  /\ extract_key_points (str "The Budget Was Approved In Full")
       (str "WE MUST SHIP BY FRIDAY. thanks all")
     = extract_key_points (str "the budget was approved in full")
         (str "we must ship by friday. Thanks All").
Proof.
  apply (extraction_ignores_case
           (str "The Budget Was Approved In Full")
           (str "the budget was approved in full")
           (str "WE MUST SHIP BY FRIDAY. thanks all")
           (str "we must ship by friday. Thanks All")); by vm_compute.
Defined.

(** Two transcripts that differ in case alone have the same action items. *)
Example same_items_in_any_case :
  extract_action_items (str "WE MUST SHIP BY FRIDAY. thanks all")
  = extract_action_items (str "we must ship by friday. Thanks All")
  /\ extract_action_items (str "WE MUST SHIP BY FRIDAY. thanks all")
     = [str "We must ship by friday."].
Proof. by vm_compute. Qed.

(** ** The three summaries *)

Lemma create_simple_summary_brief transcript_text :
  10 <= length (strip transcript_text) ->
  length (segment transcript_text) <= 2 ->
  create_simple_summary transcript_text
  = Ok (str "Brief audio containing: " ++ firstn 100 transcript_text
        ++ str "...").
Proof.
  intros Hlen Hseg. unfold create_simple_summary.
  replace (is_empty transcript_text) with false
    by (destruct transcript_text; [simpl in Hlen; lia|done]).
  replace (length (strip transcript_text) <? 10) with false
    by (symmetry; apply Nat.ltb_ge; lia).
  cbn [orb]. fold (segment transcript_text).
  by replace (length (segment transcript_text) <=? 2) with true
    by (symmetry; apply Nat.leb_le; lia).
Qed.

(** The result of [create_simple_summary] is of one of three shapes. *)
Lemma create_simple_summary_shape transcript_text :
  create_simple_summary transcript_text = Ok short_clip_summary
  \/ (length (segment transcript_text) <= 2
      /\ create_simple_summary transcript_text
         = Ok (str "Brief audio containing: " ++ firstn 100 transcript_text
               ++ str "..."))
  \/ exists first_part last_part,
       create_simple_summary transcript_text
       = Ok (long_summary first_part last_part).
Proof.
  destruct (Nat.lt_ge_cases (length (strip transcript_text)) 10) as [H|H].
  { left. by apply create_simple_summary_short. }
  destruct (Nat.le_gt_cases (length (segment transcript_text)) 2) as [H2|H2].
  - right. left. split; [done|]. by apply create_simple_summary_brief.
  - right. right.
    destruct (create_simple_summary_long transcript_text H H2)
      as (f & m & l & _ & _ & E).
    by exists f, l.
Qed.

(** X6: [create_simple_summary] never returns the empty string: every summary
    ends with a period, and the summary of a transcript of at most two
    sentences has at most 127 characters however long the transcript is. *)
Theorem summary_not_empty_and_bounded transcript_text :
  exists summary,
    create_simple_summary transcript_text = Ok summary
    /\ summary <> []
    /\ endswith summary "." = true
    /\ (length summary <= 127 \/ 3 <= length (segment transcript_text)).
Proof.
  destruct (create_simple_summary_shape transcript_text)
    as [E | [[Hseg E] | (f & l & E)]]; eexists; (split; [exact E|]).
  - split; [done|]. split; [done|]. left. vm_compute. lia.
  - split; [done|]. split.
    + by rewrite !app_assoc, endswith_app_nonempty.
    + left. rewrite !length_app, length_firstn.
      change (length (str "Brief audio containing: ")) with 24.
      change (length (str "...")) with 3. lia.
  - split; [done|]. split.
    + unfold long_summary. by rewrite !app_assoc, endswith_app_nonempty.
    + right. destruct (Nat.le_gt_cases (length (segment transcript_text)) 2)
        as [H2|H2]; [|lia].
      destruct (Nat.lt_ge_cases (length (strip transcript_text)) 10) as [H|H].
      * rewrite (create_simple_summary_short _ H) in E. by vm_compute in E.
      * rewrite (create_simple_summary_brief _ H H2) in E. by vm_compute in E.
Qed.

(** A long transcript in one sentence: the summary holds its first 100
    characters. *)
Example brief_summary_truncates :
  create_simple_summary
    (str "so basically what happened is that the vendor came back with a revised quote and the totals were higher than we had planned for this quarter")
  = Ok (str "Brief audio containing: so basically what happened is that the vendor came back with a revised quote and the totals were hig...").
Proof. by vm_compute. Qed.

(** ** The summary comes first among the key points *)

Lemma gather_points_head summary transcript x rest :
  summary_points summary = x :: rest ->
  exists rest', gather_points summary transcript = x :: rest'.
Proof.
  intros E. unfold gather_points. rewrite E. destruct (_ && _).
  - rewrite fold_point_step. cbn [app]. by eexists.
  - by eexists.
Qed.

Lemma extract_key_points_head summary transcript x rest :
  summary_points summary = x :: rest ->
  exists rest', extract_key_points summary transcript = x :: rest'.
Proof.
  intros E. destruct (gather_points_head summary transcript x rest E)
    as (rest' & Eg).
  unfold extract_key_points. rewrite unique_points_dedup_ci, Eg.
  cbn [dedup_ci firstn]. by eexists.
Qed.

(** X7: Whenever the summary gives a point, its first point is the first key
    point returned, whatever the transcript. *)
Theorem first_key_point_from_summary summary transcript x rest :
  summary_points summary = x :: rest ->
  exists rest', extract_key_points summary transcript = x :: rest'.
Proof. apply extract_key_points_head. Qed.

Lemma first_key_point_from_summary_witness :
  exists rest',
    extract_key_points (str "Sales are up in every region")
      (str "Sales are up in every region. Nothing else was said today, really.")
    = str "Sales are up in every region." :: rest'.
Proof.
  apply (first_key_point_from_summary (str "Sales are up in every region")
           (str "Sales are up in every region. Nothing else was said today, really.")
           (str "Sales are up in every region.") []).
  by vm_compute.
Defined.

(** ** A fallback summary always gives a key point *)

(** A string that starts and ends with characters that are not white space
    is kept whole by [strip] at the start of a longer string. *)
Lemma strip_keeps_prefix a core b q :
  is_space a = false -> is_space b = false ->
  exists q', strip ((a :: core ++ [b]) ++ q) = (a :: core ++ [b]) ++ q'.
Proof.
  intros Ha Hb. unfold strip, rstrip. cbn [app lstrip]. rewrite Ha.
  replace (a :: (core ++ [b]) ++ q) with ((a :: core) ++ [b] ++ q)
    by (cbn [app]; by rewrite <- app_assoc).
  rewrite !rev_app_distr, <- app_assoc. cbn [rev app].
  destruct (lstrip_word (rev q) [b] (rev core ++ [a])) as (p' & E);
    [done|by intros c [<-|[]]|].
  cbn [app] in E. rewrite E. exists (rev p').
  rewrite rev_app_distr. f_equal. cbn [rev].
  by rewrite !rev_app_distr, rev_involutive.
Qed.

Lemma clean_prefix w q :
  w <> [] -> exists rest, clean (w ++ q) = capitalize w ++ rest.
Proof.
  intros Hw. destruct w as [|c w]; [done|]. unfold clean.
  cbn [app capitalize]. rewrite lower_app.
  destruct (negb _); cbn [app]; rewrite <- ?app_assoc; by eexists.
Qed.

(** The first point of a summary that starts with [w], a string of more than
    15 characters without delimiter that neither starts nor ends with white
    space. *)
Lemma summary_points_head a core b q :
  is_space a = false -> is_space b = false ->
  (forall c, In c (a :: core ++ [b]) -> summary_delim c = false) ->
  15 < length (a :: core ++ [b]) ->
  exists tail rest,
    summary_points ((a :: core ++ [b]) ++ q)
    = (capitalize (a :: core ++ [b]) ++ tail) :: rest.
Proof.
  intros Ha Hb Hd Hlen. unfold summary_points. cbn [app is_empty negb].
  change (a :: (core ++ [b]) ++ q) with ((a :: core ++ [b]) ++ q).
  unfold re_split.
  destruct (split_runs_word_head summary_delim false _ q Hd) as (q0 & frs & ->).
  rewrite fold_point_step, app_nil_l. cbn [map List.filter].
  destruct (strip_keeps_prefix a core b q0 Ha Hb) as (q' & ->).
  replace (15 <? length ((a :: core ++ [b]) ++ q')) with true
    by (symmetry; apply Nat.ltb_lt; rewrite length_app; lia).
  cbn [map]. destruct (clean_prefix (a :: core ++ [b]) q') as (tail & ->); [done|].
  by eexists _, _.
Qed.

Lemma fallback_summary_key_point_head transcript summary :
  create_simple_summary transcript = Ok summary ->
  exists point rest,
    extract_key_points summary transcript = point :: rest
    /\ (startswith point (str "Short audio clip with minimal content.")
        || startswith point (str "Brief audio containing:")
        || startswith point (str "The audio discusses")) = true.
Proof.
  intros E.
  assert (forall w tail rest,
            summary_points summary = (w ++ tail) :: rest ->
            exists point rest',
              extract_key_points summary transcript = point :: rest'
              /\ startswith point w = true) as Hhead.
  { intros w tail rest Hs.
    destruct (extract_key_points_head summary transcript _ _ Hs)
      as (rest' & ->).
    exists (w ++ tail), rest'. split; [done|]. apply startswith_true. by eexists. }
  destruct (create_simple_summary_shape transcript)
    as [E' | [[_ E'] | (f & l & E')]]; rewrite E in E'; injection E' as ->.
  - destruct (Hhead short_clip_summary [] []) as (point & rest & -> & Hp);
      [by vm_compute|].
    exists point, rest. split; [done|].
    unfold short_clip_summary in Hp. by rewrite Hp.
  - destruct (summary_points_head "B" (str "rief audio containing") ":"
                (" "%char :: firstn 100 transcript ++ str "..."))
      as (tail & rest & Hs); [done|done| |vm_compute; lia|].
    { intros c Hc. vm_compute in Hc.
      repeat (destruct Hc as [<-|Hc]; [by vm_compute|]). done. }
    destruct (Hhead (str "Brief audio containing:") tail rest)
      as (point & rest' & -> & Hp); [exact Hs|].
    exists point, rest'. split; [done|]. by rewrite Hp, orb_true_r.
  - destruct (summary_points_head "T" (str "he audio discusse") "s"
                (" "%char :: lower f ++ str " and concludes with "
                 ++ lower l ++ str "."))
      as (tail & rest & Hs); [done|done| |vm_compute; lia|].
    { intros c Hc. vm_compute in Hc.
      repeat (destruct Hc as [<-|Hc]; [by vm_compute|]). done. }
    destruct (Hhead (str "The audio discusses") tail rest)
      as (point & rest' & -> & Hp); [exact Hs|].
    exists point, rest'. split; [done|]. by rewrite Hp, orb_true_r.
Qed.

(** X8: The summary that [create_simple_summary] writes always gives a key
    point: for every transcript, [extract_key_points] on that summary and the
    transcript returns a list whose first string starts with the opening words
    of the summary. *)
Theorem fallback_summary_gives_key_point transcript summary :
  create_simple_summary transcript = Ok summary ->
  exists point rest,
    extract_key_points summary transcript = point :: rest
    /\ (startswith point (str "Short audio clip with minimal content.")
        || startswith point (str "Brief audio containing:")
        || startswith point (str "The audio discusses")) = true.
Proof. apply fallback_summary_key_point_head. Qed.

Lemma fallback_summary_gives_key_point_witness :
  exists point rest,
    extract_key_points
      (str "Brief audio containing: Team sync about the quarterly roadmap...")
      (str "Team sync about the quarterly roadmap")
    = point :: rest
    /\ (startswith point (str "Short audio clip with minimal content.")
        || startswith point (str "Brief audio containing:")
        || startswith point (str "The audio discusses")) = true.
Proof.
  apply (fallback_summary_gives_key_point
           (str "Team sync about the quarterly roadmap")).
  by vm_compute.
Defined.

(** * Properties of [transcribe_audio] and of the analysis of its result *)

Import Transcribe.

Lemma create_simple_summary_nonempty transcript_text summary :
  create_simple_summary transcript_text = Ok summary -> summary <> [].
Proof.
  intros E. destruct (create_simple_summary_shape transcript_text)
    as [E' | [[_ E'] | (f & l & E')]]; rewrite E in E'; by injection E' as ->.
Qed.

Lemma or_default_nonempty o default : default <> [] -> or_default o default <> [].
Proof. intros H. by destruct o as [[|c s]|]. Qed.

Section TranscribeAudio.

Context {value : Type}.
Variables (float_zero int_zero : value).
Variables (w : world value) (file_path : pystr).

Lemma transcribe_audio_returns transcript :
  path_exists w file_path = true ->
  transcribe w file_path = inr transcript ->
  Provider.status transcript <> str "error" ->
  exists result,
    transcribe_audio float_zero int_zero w file_path = inr result
    /\ Result.transcript result
       = or_default (Provider.text transcript) (str "No transcript available")
    /\ match Provider.summary transcript with
       | Some (c :: s) => Result.summary result = c :: s
       | _ => create_simple_summary (Result.transcript result)
              = Ok (Result.summary result)
       end.
Proof.
  intros He Ht Hs. unfold transcribe_audio, transcribe_audio_body.
  rewrite He, Ht. cbn [negb]. rewrite bool_decide_eq_false_2 by done.
  destruct (Provider.summary transcript) as [[|c s]|].
  - destruct (create_simple_summary_total
                (or_default (Provider.text transcript)
                   (str "No transcript available"))) as (r & E).
    rewrite E. by eexists.
  - by eexists.
  - destruct (create_simple_summary_total
                (or_default (Provider.text transcript)
                   (str "No transcript available"))) as (r & E).
    rewrite E. by eexists.
Qed.

Lemma transcribe_audio_raises :
  path_exists w file_path = false
  \/ (exists msg, transcribe w file_path = inl msg)
  \/ (exists transcript,
        transcribe w file_path = inr transcript
        /\ Provider.status transcript = str "error") ->
  transcribe_audio float_zero int_zero w file_path
  = inl (RuntimeError (str "Transcription service error: "
                       ++ failure_message w file_path)).
Proof.
  unfold transcribe_audio, transcribe_audio_body, failure_message.
  destruct (path_exists w file_path); cbn [negb].
  - intros [?|[(msg & ->)|(tr & -> & Hs)]]; [done|done|].
    by rewrite bool_decide_eq_true_2.
  - done.
Qed.

Lemma transcribe_audio_dichotomy :
  (path_exists w file_path = true
   /\ exists transcript,
        transcribe w file_path = inr transcript
        /\ Provider.status transcript <> str "error")
  \/ (path_exists w file_path = false
      \/ (exists msg, transcribe w file_path = inl msg)
      \/ (exists transcript,
            transcribe w file_path = inr transcript
            /\ Provider.status transcript = str "error")).
Proof.
  destruct (path_exists w file_path); [|right; by left].
  destruct (transcribe w file_path) as [msg|tr] eqn:E.
  - right. right. left. by exists msg.
  - destruct (decide (Provider.status tr = str "error")) as [Hs|Hs].
    + right. right. right. by exists tr.
    + left. split; [done|]. by exists tr.
Qed.

End TranscribeAudio.

(** ** Success and failure of [transcribe_audio] *)

(** X9: [transcribe_audio] returns a result whenever the file exists and the
    provider answers with a transcript whose status is not "error"; the
    analyzer never makes it fail. In the result the transcript and the summary
    are not empty: the transcript is the text of the provider, or "No
    transcript available" when there is none; the summary is the provider's
    when it has one, else the one of [create_simple_summary]. *)
Theorem transcribe_audio_success {value : Type} (float_zero int_zero : value)
    (w : world value) (file_path : pystr) (transcript : Provider.transcript value) :
  path_exists w file_path = true ->
  transcribe w file_path = inr transcript ->
  Provider.status transcript <> str "error" ->
  exists result,
    transcribe_audio float_zero int_zero w file_path = inr result
    /\ Result.transcript result
       = or_default (Provider.text transcript) (str "No transcript available")
    /\ Result.transcript result <> []
    /\ Result.summary result <> []
    /\ match Provider.summary transcript with
       | Some (c :: s) => Result.summary result = c :: s
       | _ => create_simple_summary (Result.transcript result)
              = Ok (Result.summary result)
       end.
Proof.
  intros He Ht Hs.
  destruct (transcribe_audio_returns float_zero int_zero w file_path
              transcript He Ht Hs) as (result & E & Etext & Esum).
  exists result. split; [done|]. split; [done|]. split; [|split; [|done]].
  - rewrite Etext. by apply or_default_nonempty.
  - destruct (Provider.summary transcript) as [[|c s]|].
    + by eapply create_simple_summary_nonempty.
    + by rewrite Esum.
    + by eapply create_simple_summary_nonempty.
Qed.

Lemma transcribe_audio_success_witness :
  exists result,
    transcribe_audio 0 0
      (sample_world
         (inr (sample_transcript (str "completed")
                 (Some (str "We will meet on Monday.")) None)))
      (str "uploads/standup.m4a")
    = inr result
    /\ Result.transcript result
       = or_default (Some (str "We will meet on Monday."))
           (str "No transcript available")
    /\ Result.transcript result <> []
    /\ Result.summary result <> []
    /\ create_simple_summary (Result.transcript result)
       = Ok (Result.summary result).
Proof.
  apply (transcribe_audio_success 0 0
           (sample_world
              (inr (sample_transcript (str "completed")
                      (Some (str "We will meet on Monday.")) None)))
           (str "uploads/standup.m4a")
           (sample_transcript (str "completed")
              (Some (str "We will meet on Monday.")) None)).
  - by vm_compute.
  - done.
  - by vm_compute.
Defined.

(** X10: Whatever goes wrong, [transcribe_audio] raises a [RuntimeError] and
    no other exception, with the message "Transcription service error: "
    followed by the message of the cause; and it fails only when the file is
    missing, the client raises, or the provider reports the status "error". *)
Theorem transcribe_audio_failure {value : Type} (float_zero int_zero : value)
    (w : world value) (file_path : pystr) (e : raised) :
  transcribe_audio float_zero int_zero w file_path = inl e ->
  e = RuntimeError (str "Transcription service error: "
                    ++ failure_message w file_path)
  /\ (path_exists w file_path = false
      \/ (exists msg, transcribe w file_path = inl msg)
      \/ (exists transcript,
            transcribe w file_path = inr transcript
            /\ Provider.status transcript = str "error")).
Proof.
  intros E.
  destruct (transcribe_audio_dichotomy w file_path)
    as [(He & tr & Ht & Hs) | Hfail].
  - destruct (transcribe_audio_returns float_zero int_zero w file_path
                tr He Ht Hs) as (result & E' & _).
    congruence.
  - split; [|done].
    rewrite (transcribe_audio_raises float_zero int_zero w file_path Hfail)
      in E.
    congruence.
Qed.

Lemma transcribe_audio_failure_witness :
  RuntimeError
    (str "Transcription service error: Audio file not found: uploads/gone.wav")
  = RuntimeError
      (str "Transcription service error: "
       ++ failure_message (sample_world (inl (str "unused")))
            (str "uploads/gone.wav"))
  /\ (path_exists (sample_world (inl (str "unused"))) (str "uploads/gone.wav")
      = false
      \/ (exists msg,
            transcribe (sample_world (inl (str "unused")))
              (str "uploads/gone.wav") = inl msg)
      \/ (exists transcript,
            transcribe (sample_world (inl (str "unused")))
              (str "uploads/gone.wav") = inr transcript
            /\ Provider.status transcript = str "error")).
Proof.
  apply (transcribe_audio_failure 0 0 (sample_world (inl (str "unused")))
           (str "uploads/gone.wav")).
  by vm_compute.
Defined.

(** A missing file, a failure of the client and an error of the provider,
    each with its message. *)
Example failure_messages_by_cause :
  transcribe_audio 0 0 (sample_world (inl (str "unused")))
    (str "uploads/gone.wav")
  = inl (RuntimeError
           (str "Transcription service error: Audio file not found: uploads/gone.wav"))
  /\ transcribe_audio 0 0 (sample_world (inl (str "connection refused")))
       (str "uploads/standup.m4a")
     = inl (RuntimeError
              (str "Transcription service error: connection refused"))
  /\ transcribe_audio 0 0
       (sample_world (inr (sample_transcript (str "error") None None)))
       (str "uploads/standup.m4a")
     = inl (RuntimeError
              (str "Transcription service error: Transcription failed: None")).
Proof. by vm_compute. Qed.

(** ** The analysis of a result *)

(** X11: On every result of [transcribe_audio] the analysis that
    [process_transcription] and [process_recording_now] run gives between 1
    and 5 action items and at most 5 key points; when the provider gave no
    summary there is at least one key point too. *)
Theorem analysis_of_result_not_empty {value : Type} (float_zero int_zero : value)
    (w : world value) (file_path : pystr)
    (transcript : Provider.transcript value) (result : Result.t value) :
  transcribe_audio float_zero int_zero w file_path = inr result ->
  transcribe w file_path = inr transcript ->
  1 <= length (fst (analysis result)) <= 5
  /\ length (snd (analysis result)) <= 5
  /\ (or_default (Provider.summary transcript) [] <> []
      \/ snd (analysis result) <> []).
Proof.
  intros E Ht.
  destruct (transcribe_audio_dichotomy w file_path)
    as [(He & tr & Ht' & Hs) | Hfail].
  2:{ rewrite (transcribe_audio_raises float_zero int_zero w file_path Hfail)
        in E. done. }
  rewrite Ht in Ht'. injection Ht' as <-.
  destruct (transcribe_audio_returns float_zero int_zero w file_path
              transcript He Ht Hs) as (result' & E' & Etext & Esum).
  rewrite E in E'. injection E' as <-.
  assert (Result.transcript result <> []) as Hne
    by (rewrite Etext; by apply or_default_nonempty).
  unfold analysis. cbn [fst snd]. split; [split|split].
  - pose proof (extract_action_items_is_empty (Result.transcript result)) as H.
    destruct (extract_action_items (Result.transcript result)) as [|x l].
    + by destruct (Result.transcript result).
    + simpl. lia.
  - unfold extract_action_items.
    destruct (is_empty (Result.transcript result)); [simpl; lia|].
    apply firstn_le_length.
  - apply firstn_le_length.
  - destruct (Provider.summary transcript) as [[|c s]|]; [|by left|]; right.
    + destruct (fallback_summary_key_point_head _ _ Esum) as (p & r & -> & _).
      done.
    + destruct (fallback_summary_key_point_head _ _ Esum) as (p & r & -> & _).
      done.
Qed.

Lemma analysis_of_result_not_empty_witness :
  1 <= length
         (fst (analysis
                 {| Result.transcript := str "We will meet on Monday.";
                    Result.summary :=
                      str "Brief audio containing: We will meet on Monday....";
                    Result.chapters := [];
                    Result.confidence := 93;
                    Result.audio_duration := 12 |})) <= 5
  /\ length
       (snd (analysis
               {| Result.transcript := str "We will meet on Monday.";
                  Result.summary :=
                    str "Brief audio containing: We will meet on Monday....";
                  Result.chapters := [];
                  Result.confidence := 93;
                  Result.audio_duration := 12 |})) <= 5
  /\ (or_default
        (Provider.summary
           (sample_transcript (str "completed")
              (Some (str "We will meet on Monday.")) None)) [] <> []
      \/ snd (analysis
                {| Result.transcript := str "We will meet on Monday.";
                   Result.summary :=
                     str "Brief audio containing: We will meet on Monday....";
                   Result.chapters := [];
                   Result.confidence := 93;
                   Result.audio_duration := 12 |}) <> []).
Proof.
  apply (analysis_of_result_not_empty 0 0
           (sample_world
              (inr (sample_transcript (str "completed")
                      (Some (str "We will meet on Monday.")) None)))
           (str "uploads/standup.m4a")
           (sample_transcript (str "completed")
              (Some (str "We will meet on Monday.")) None)).
  - by vm_compute.
  - done.
Defined.

(** X12: When the provider returns no text and no summary, the result has the
    transcript "No transcript available" and a summary made from it, and the
    analysis gives one action item, the general one, and two key points. *)
Theorem transcribe_audio_without_text {value : Type} (float_zero int_zero : value)
    (w : world value) (file_path : pystr)
    (transcript : Provider.transcript value) :
  path_exists w file_path = true ->
  transcribe w file_path = inr transcript ->
  Provider.status transcript <> str "error" ->
  or_default (Provider.text transcript) [] = [] ->
  or_default (Provider.summary transcript) [] = [] ->
  exists result,
    transcribe_audio float_zero int_zero w file_path = inr result
    /\ Result.transcript result = str "No transcript available"
    /\ Result.summary result
       = str "Brief audio containing: No transcript available..."
    /\ analysis result
       = ([str "Review recording content for further action."],
          [str "Brief audio containing: no transcript available.";
           str "No transcript available."]).
Proof.
  intros He Ht Hs Htext Hsum.
  destruct (transcribe_audio_returns float_zero int_zero w file_path
              transcript He Ht Hs) as (result & E & Et & Esum).
  assert (Result.transcript result = str "No transcript available") as Et'.
  { rewrite Et. by destruct (Provider.text transcript) as [[|c s]|]. }
  assert (Result.summary result
          = str "Brief audio containing: No transcript available...") as Es'.
  { rewrite Et' in Esum.
    assert (create_simple_summary (str "No transcript available")
            = Ok (str "Brief audio containing: No transcript available..."))
      as Ec by (by vm_compute).
    destruct (Provider.summary transcript) as [[|c s]|]; [| done |];
      rewrite Ec in Esum; by injection Esum. }
  exists result. split; [done|]. split; [done|]. split; [done|].
  unfold analysis. rewrite Et', Es'. by vm_compute.
Qed.

Lemma transcribe_audio_without_text_witness :
  exists result,
    transcribe_audio 0 0
      (sample_world (inr (sample_transcript (str "completed") None (Some []))))
      (str "uploads/standup.m4a")
    = inr result
    /\ Result.transcript result = str "No transcript available"
    /\ Result.summary result
       = str "Brief audio containing: No transcript available..."
    /\ analysis result
       = ([str "Review recording content for further action."],
          [str "Brief audio containing: no transcript available.";
           str "No transcript available."]).
Proof.
  apply (transcribe_audio_without_text 0 0
           (sample_world
              (inr (sample_transcript (str "completed") None (Some []))))
           (str "uploads/standup.m4a")
           (sample_transcript (str "completed") None (Some [])));
    done || by vm_compute.
Defined.

(** * Further properties of the two extractions *)

(** ** The item for meetings is never made up *)

(** X13: When no sentence of a non-empty transcript matches, the one item
    returned is the one for calls or the general one: the branch for "meeting"
    is never taken, as a transcript with that word always has a matched
    sentence. *)
Theorem fallback_is_call_or_general transcript :
  transcript <> [] ->
  keyword_scan transcript = [] ->
  extract_action_items transcript = [call_item]
  \/ extract_action_items transcript = [generic_item].
Proof.
  intros Hne Hscan. rewrite extract_action_items_cases, Hscan.
  destruct transcript as [|c t]; [done|]. cbn [is_empty]. unfold fallback_item.
  destruct (contains (str "meeting") (lower (c :: t))) eqn:Hm.
  - by apply meeting_always_matched in Hm.
  - destruct (contains (str "call") (lower (c :: t))); [by left|by right].
Qed.

Lemma fallback_is_call_or_general_witness :
  extract_action_items (str "Call. Meet. Bye") = [call_item]
  \/ extract_action_items (str "Call. Meet. Bye") = [generic_item].
Proof.
  apply (fallback_is_call_or_general (str "Call. Meet. Bye")); by vm_compute.
Defined.

(** ** No short strings *)

Lemma capitalize_length s : length (capitalize s) = length s.
Proof.
  destruct s as [|c s]; [done|]. cbn [capitalize length]. unfold lower.
  by rewrite length_map.
Qed.

(** X14: The thresholds of the loops show in the output: every action item
    has at least 6 characters and every key point at least 17, the final
    period counted. *)
Theorem output_strings_min_length transcript summary :
  Forall (fun x => 6 <= length x) (extract_action_items transcript)
  /\ Forall (fun x => 17 <= length x)
       (extract_key_points summary transcript).
Proof.
  split; apply List.Forall_forall; intros x Hx.
  - apply extract_action_items_In in Hx as [H | [-> | [-> | ->]]];
      [|vm_compute; lia..].
    apply keyword_scan_fragment in H as (frag & Hin & -> & Hp).
    rewrite clean_no_delim.
    2:{ intros d Hd%strip_In. by eapply re_split_no_delim. }
    rewrite length_app, capitalize_length.
    unfold is_action_sentence in Hp.
    apply andb_true_iff in Hp as [Hlen%negb_true_iff%Nat.ltb_ge _].
    simpl. lia.
  - apply extract_key_points_In, gather_points_fragment in Hx
      as (frag & [Hin|Hin] & -> & Hlen).
    + rewrite clean_no_delim.
      2:{ intros d Hd%strip_In. apply summary_delim_sentence_delim.
          by eapply re_split_no_delim. }
      rewrite length_app, capitalize_length. simpl. lia.
    + rewrite clean_no_delim.
      2:{ intros d Hd%strip_In. by eapply re_split_no_delim. }
      rewrite length_app, capitalize_length. simpl. lia.
Qed.

(** The shortest strings that pass: a sentence of 5 characters with a
    keyword, a fragment of the summary of 16 characters and one of the
    transcript of 21; those of 4, 15 and 20 characters do not. *)
Example shortest_strings_that_pass :
  extract_action_items (str "ok. will! no") = [generic_item]
  /\ extract_action_items (str "ok. willy! no") = [str "Willy."]
  /\ extract_key_points (str "exactly15 chars; exactly 16 chars")
       (str "twenty characters ok. twenty-one characters")
     = [ str "Exactly 16 chars."; str "Twenty-one characters." ].
Proof. by vm_compute. Qed.

(** ** Key points without a summary *)

Lemma filter_length_le {A} (f : A -> bool) l :
  length (List.filter f l) <= length l.
Proof.
  induction l as [|a l IH]; [done|]. simpl. destruct (f a); simpl; lia.
Qed.

Lemma dedup_ci_length l : length (dedup_ci l) <= length l.
Proof.
  induction l as [|a l IH]; [done|]. simpl.
  pose proof (filter_length_le (fun y => negb (ci_eqb a y)) (dedup_ci l)). lia.
Qed.

(** X15: The transcript adds at most 3 key points to those of the summary;
    with an empty summary there are at most 3 key points. *)
Theorem key_points_at_most_three_from_transcript summary transcript :
  length (extract_key_points summary transcript)
  <= length (summary_points summary) + 3
  /\ length (extract_key_points [] transcript) <= 3.
Proof.
  assert (forall s,
            length (extract_key_points s transcript)
            <= length (summary_points s) + 3) as H.
  { intros s. unfold extract_key_points.
    rewrite length_firstn, unique_points_dedup_ci.
    pose proof (dedup_ci_length (gather_points s transcript)) as Hd.
    assert (length (gather_points s transcript)
            <= length (summary_points s) + 3); [|lia].
    unfold gather_points. destruct (_ && _); [|lia].
    rewrite fold_point_step, length_app, length_map.
    pose proof (filter_length_le (fun p => 20 <? length p)
                  (map strip (firstn 3 (re_split sentence_delim transcript))))
      as Hf.
    rewrite length_map, length_firstn in Hf. lia. }
  split; [apply H|]. apply (H []).
Qed.

(** Four long sentences and no summary: three key points. *)
Example three_key_points_without_summary :
  extract_key_points []
    (str "The first sentence is long enough. The second sentence is long enough. The third sentence is long enough. The fourth sentence is long enough.")
  = [ str "The first sentence is long enough.";
      str "The second sentence is long enough.";
      str "The third sentence is long enough." ].
Proof. by vm_compute. Qed.

(** ** Transcripts joined by a delimiter *)

Lemma extend_first_nil fragments : fragments <> [] -> extend_first [] fragments = fragments.
Proof. by destruct fragments. Qed.

Lemma extend_first_twice p a fragments :
  extend_first p (extend_first [a] fragments) = extend_first (p ++ [a]) fragments.
Proof.
  destruct fragments as [|f fs]; cbn [extend_first]; [done|].
  by rewrite <- app_assoc.
Qed.

Lemma split_runs_cons_other delim b a s :
  delim a = false ->
  split_runs delim b (a :: s) = extend_first [a] (split_runs delim false s).
Proof. intros Ha. cbn [split_runs]. by rewrite Ha. Qed.

Section FlatMapOfFragments.

Context {B : Type} (g : pystr -> list B) (Hg : g [] = []).
Variable (delim : ascii -> bool).

(** An empty fragment adds nothing, so the flag of [split_runs] does not
    show. *)
Lemma flat_map_split_runs_flag s :
  flat_map g (split_runs delim true s) = flat_map g (split_runs delim false s).
Proof using Hg.
  destruct s as [|a s]; [done|]. cbn [split_runs].
  destruct (delim a); [|done]. cbn [flat_map]. by rewrite Hg.
Qed.

Lemma flat_map_split_runs_app b p s1 c s2 :
  delim c = true -> (b = true -> p = []) ->
  flat_map g (extend_first p (split_runs delim b (s1 ++ c :: s2)))
  = flat_map g (extend_first p (split_runs delim b s1))
    ++ flat_map g (split_runs delim true s2).
Proof using Hg.
  intros Hc. revert b p. induction s1 as [|a s1 IH]; intros b p Hbp.
  - cbn [app split_runs]. rewrite Hc. destruct b.
    + rewrite (Hbp eq_refl).
      rewrite extend_first_nil by apply split_runs_nonempty.
      cbn [extend_first flat_map app]. by rewrite Hg.
    + cbn [extend_first flat_map]. by rewrite !app_nil_r.
  - cbn [app]. destruct (delim a) eqn:Ha.
    + cbn [split_runs]. rewrite Ha.
      pose proof (IH true [] (fun _ => eq_refl)) as IH'.
      rewrite !extend_first_nil in IH' by apply split_runs_nonempty.
      destruct b.
      * rewrite (Hbp eq_refl).
        by rewrite !extend_first_nil by apply split_runs_nonempty.
      * cbn [extend_first flat_map]. by rewrite IH', app_assoc.
    + rewrite !split_runs_cons_other by done. rewrite !extend_first_twice.
      by apply IH.
Qed.

Lemma flat_map_split_runs_join s1 c s2 :
  delim c = true ->
  flat_map g (split_runs delim false (s1 ++ c :: s2))
  = flat_map g (split_runs delim false s1)
    ++ flat_map g (split_runs delim false s2).
Proof using Hg.
  intros Hc.
  pose proof (flat_map_split_runs_app false [] s1 c s2 Hc) as H.
  rewrite !extend_first_nil in H by apply split_runs_nonempty.
  rewrite H by done. by rewrite flat_map_split_runs_flag.
Qed.

End FlatMapOfFragments.

Lemma keyword_scan_flat_map transcript_text :
  keyword_scan transcript_text
  = flat_map action_of_fragment (re_split sentence_delim transcript_text).
Proof.
  rewrite keyword_scan_eq.
  induction (re_split sentence_delim transcript_text) as [|f fs IH]; [done|].
  cbn [map List.filter flat_map]. unfold action_of_fragment at 1.
  destruct (is_action_sentence (strip f)); cbn [map app]; by rewrite IH.
Qed.

Lemma keyword_scan_join transcript1 c transcript2 :
  sentence_delim c = true ->
  keyword_scan (transcript1 ++ c :: transcript2)
  = keyword_scan transcript1 ++ keyword_scan transcript2.
Proof.
  intros Hc. rewrite !keyword_scan_flat_map. unfold re_split.
  by apply flat_map_split_runs_join.
Qed.

(** X16: The matched sentences of two transcripts joined by [.], [!] or [?]
    are those of the first followed by those of the second, so the action
    items of the whole are the first 5 of them when there is one. *)
Theorem action_items_of_joined_transcripts transcript1 c transcript2 :
  sentence_delim c = true ->
  keyword_scan transcript1 ++ keyword_scan transcript2 <> [] ->
  extract_action_items (transcript1 ++ c :: transcript2)
  = firstn 5 (keyword_scan transcript1 ++ keyword_scan transcript2).
Proof.
  intros Hc Hne. rewrite extract_action_items_cases, keyword_scan_join by done.
  destruct (transcript1 ++ c :: transcript2) eqn:E.
  - by destruct transcript1.
  - cbn [is_empty].
    by destruct (keyword_scan transcript1 ++ keyword_scan transcript2).
Qed.

Lemma action_items_of_joined_transcripts_witness :
  extract_action_items
    (str "We should hire two people" ++ "!"%char :: str " Thanks. Email me the list")
  = firstn 5
      (keyword_scan (str "We should hire two people")
       ++ keyword_scan (str " Thanks. Email me the list")).
Proof.
  apply (action_items_of_joined_transcripts
           (str "We should hire two people") "!"
           (str " Thanks. Email me the list")); by vm_compute.
Defined.

(** X17: Once a transcript has five action items, what is said after it
    changes nothing: the transcript followed by a delimiter and any more text
    has the same five items. *)
Theorem five_action_items_are_final transcript c more :
  sentence_delim c = true ->
  length (extract_action_items transcript) = 5 ->
  extract_action_items (transcript ++ c :: more)
  = extract_action_items transcript.
Proof.
  intros Hc Hlen.
  assert (5 <= length (keyword_scan transcript)) as Hscan.
  { rewrite extract_action_items_cases in Hlen.
    destruct (is_empty transcript); [simpl in Hlen; lia|].
    destruct (is_empty (keyword_scan transcript)); [simpl in Hlen; lia|].
    rewrite length_firstn in Hlen. lia. }
  rewrite !extract_action_items_cases, keyword_scan_join by done.
  destruct (transcript ++ c :: more) as [|a0 t0] eqn:E;
    [by destruct transcript|].
  destruct transcript as [|a t]; [simpl in Hscan; lia|]. cbn [is_empty].
  destruct (keyword_scan (a :: t)) as [|x l] eqn:Es; [simpl in Hscan; lia|].
  cbn [app is_empty].
  change (x :: l ++ keyword_scan more) with ((x :: l) ++ keyword_scan more).
  rewrite firstn_app.
  replace (5 - length (x :: l)) with 0 by lia.
  by rewrite firstn_O, app_nil_r.
Qed.

Lemma five_action_items_are_final_witness :
  extract_action_items
    (str "Will one. Will two. Will three. Will four. Will five"
     ++ "."%char :: str " We must also call the bank")
  = extract_action_items
      (str "Will one. Will two. Will three. Will four. Will five").
Proof.
  apply (five_action_items_are_final
           (str "Will one. Will two. Will three. Will four. Will five") "."
           (str " We must also call the bank")); by vm_compute.
Defined.
